(** * totxt: a repository flattener

    A shallow embedding of [totxt.py] (class [SourceCodeConverter] and the
    command [convert]) and the verification of its specification.

    Python values are modelled as follows.
    - A [str] is the list of its Unicode code points ([N]); a [bytes] object
      is a [list byte].
    - A [pathlib.Path] (POSIX flavour) is its root and its list of components.
    - A directory tree is an inductive type; [os.walk] is a function over it.
    - Code that can raise returns a [res]; the methods that log, print or
      write run in a small state-and-exception monad [M] over the console,
      the output file and the directories of the file system.
    - Library functions whose behaviour is not fixed by this repository
      ([chardet.detect], the codecs, [fnmatch.fnmatchcase], the [git] client)
      are variables of the section [Converter]. *)

From Stdlib Require Import String Ascii.
From Stdlib Require Import List NArith ZArith Bool Lia Permutation.
From Stdlib Require Strings.Byte.
Import ListNotations.

Set Warnings "-register-all,-abstract-large-number".

(* ------------------------------------------------------------------ *)
(** ** Python strings *)

Module PyStr.

Definition str := list N.

(** A string literal of the source: one code point per character. *)
Fixpoint lit (s : string) : str :=
  match s with
  | EmptyString => []
  | String c s' => N_of_ascii c :: lit s'
  end.

Fixpoint eqb (a b : str) : bool :=
  match a, b with
  | [], [] => true
  | x :: a', y :: b' => N.eqb x y && eqb a' b'
  | _, _ => false
  end.

Definition is_empty (s : str) : bool :=
  match s with [] => true | _ => false end.

(** [c.isspace()]: the code points CPython classifies as whitespace. *)
Definition isspace (c : N) : bool :=
  ((9 <=? c) && (c <=? 13) || (28 <=? c) && (c <=? 32)
   || (c =? 133) || (c =? 160) || (c =? 5760)
   || (8192 <=? c) && (c <=? 8202)
   || (c =? 8232) || (c =? 8233) || (c =? 8239) || (c =? 8287)
   || (c =? 12288))%N.

Fixpoint lstrip (s : str) : str :=
  match s with
  | c :: t => if isspace c then lstrip t else s
  | [] => []
  end.

Definition rstrip (s : str) : str := rev (lstrip (rev s)).

(** [s.strip()] *)
Definition strip (s : str) : str := rstrip (lstrip s).

(** [s.startswith(p)] *)
Fixpoint startswith (s p : str) : bool :=
  match p, s with
  | [], _ => true
  | c :: p', d :: s' => N.eqb c d && startswith s' p'
  | _ :: _, [] => false
  end.

(** [sub in s] *)
Fixpoint contains (s sub : str) : bool :=
  startswith s sub
  || match s with
     | [] => false
     | _ :: t => contains t sub
     end.

(** [s.split(sep)] for a one-character separator. *)
Fixpoint split (sep : N) (s : str) : list str :=
  match s with
  | [] => [[]]
  | c :: t =>
      if N.eqb c sep then [] :: split sep t
      else match split sep t with
           | h :: r => (c :: h) :: r
           | [] => [[c]]
           end
  end.

(** [sep.join(l)] *)
Fixpoint join (sep : str) (l : list str) : str :=
  match l with
  | [] => []
  | [x] => x
  | x :: r => x ++ sep ++ join sep r
  end.

(** [c * n] for a one-character string [c]. *)
Definition times (c : N) (n : nat) : str := repeat c n.

(** [s.rfind(c)]: the index of the last occurrence, if any. *)
Fixpoint rfind (c : N) (s : str) : option nat :=
  match s with
  | [] => None
  | d :: t =>
      match rfind c t with
      | Some i => Some (S i)
      | None => if N.eqb c d then Some 0 else None
      end
  end.

(** The UTF-8 codec has no encoding for the surrogates U+D800..U+DFFF:
    writing a string that holds one to a file opened with
    [encoding='utf-8'] raises [UnicodeEncodeError]. *)
Definition is_surrogate (c : N) : bool := ((55296 <=? c) && (c <=? 57343))%N.

Definition utf8_encodable (s : str) : bool :=
  forallb (fun c => negb (is_surrogate c)) s.

(** Reading in text mode with the default [newline=None]: the decoded text
    has every ["\r\n"] and every lone ["\r"] replaced by ["\n"]. *)
Fixpoint universal_newlines (s : str) : str :=
  match s with
  | [] => []
  | c :: t =>
      if N.eqb c 13
      then 10%N :: match t with
                   | d :: t' => if N.eqb d 10 then universal_newlines t'
                                else universal_newlines t
                   | [] => []
                   end
      else c :: universal_newlines t
  end.

End PyStr.

Import PyStr.

(* ------------------------------------------------------------------ *)
(** ** Exceptions *)

Inductive exn : Set :=
| ValueError | OSError | LookupError | UnicodeEncodeError | CalledProcessError.

Inductive res (A : Type) : Type :=
| Ok (a : A)
| Raise (e : exn).

Arguments Ok {A} a.
Arguments Raise {A} e.

(* ------------------------------------------------------------------ *)
(** ** pathlib (POSIX flavour) *)

Record Path : Type := mkPath { anchor : str; parts : list str }.

Module PurePath.

Definition slash : N := 47.

Fixpoint lstrip_slash (s : str) : str :=
  match s with
  | c :: t => if N.eqb c slash then lstrip_slash t else s
  | [] => []
  end.

(** [splitroot]: exactly two leading slashes are kept as the root ["//"],
    any other number of them is the root ["/"]. *)
Definition splitroot (s : str) : str * str :=
  match s with
  | c :: _ =>
      if N.eqb c slash then
        let stripped := lstrip_slash s in
        if Nat.eqb (length s - length stripped) 2
        then (lit "//", stripped) else (lit "/", stripped)
      else ([], s)
  | [] => ([], [])
  end.

Definition keep_part (x : str) : bool :=
  negb (is_empty x) && negb (eqb x (lit ".")).

(** [Path(s)]: split at the separators, drop empty and ["."] components. *)
Definition parse (s : str) : Path :=
  let (r, rel) := splitroot s in
  mkPath r (filter keep_part (split slash rel)).

(** The components with the root, when there is one, as the first. *)
Definition cparts (p : Path) : list str :=
  if is_empty (anchor p) then parts p else anchor p :: parts p.

(** [str(p)] *)
Definition to_str (p : Path) : str :=
  match anchor p, parts p with
  | [], [] => lit "."
  | r, ps => r ++ join (lit "/") ps
  end.

(** [p / name] for a directory-entry name. *)
Definition joinpath (p : Path) (name : str) : Path :=
  mkPath (anchor p) (parts p ++ [name]).

Fixpoint parts_eqb (a b : list str) : bool :=
  match a, b with
  | [], [] => true
  | x :: a', y :: b' => eqb x y && parts_eqb a' b'
  | _, _ => false
  end.

Fixpoint strip_prefix (pre l : list str) : option (list str) :=
  match pre, l with
  | [], _ => Some l
  | x :: pre', y :: l' => if eqb x y then strip_prefix pre' l' else None
  | _ :: _, [] => None
  end.

(** [p.relative_to(base)] *)
Definition relative_to (p base : Path) : res Path :=
  if eqb (anchor p) (anchor base) then
    match strip_prefix (parts base) (parts p) with
    | Some rest => Ok (mkPath [] rest)
    | None => Raise ValueError
    end
  else Raise ValueError.

(** [p.name] and [p.stem] *)
Definition name (p : Path) : str := last (parts p) [].

Definition stem (p : Path) : str :=
  let n := name p in
  match rfind 46 n with
  | Some i => if Nat.ltb 0 i && Nat.ltb i (length n - 1) then firstn i n else n
  | None => n
  end.

End PurePath.

(* ------------------------------------------------------------------ *)
(** ** The file system *)

Definition bytes : Type := list Byte.byte.

(** A directory entry that is not a directory, as the run observes it:
    [f_size] is what [os.path.getsize] returns and [f_data] what a read of
    the whole file returns; [None] stands for the call raising [OSError]
    (a dangling link, a file that may not be read). *)
Record file : Type := mkFile { f_size : option N; f_data : option bytes }.

(** A directory tree. Names are directory-entry names: one path component
    each. A directory that cannot be listed, or a link to a directory,
    yields nothing in [os.walk] and is a [Dir] without children. *)
Inductive entry : Type :=
| File (name : str) (f : file)
| Dir (name : str) (children : list entry).


(** The directory a run is started on: its entries in the order
    [os.scandir] lists them, and the lines of its [.gitignore]
    ([None]: there is no such regular file; [Some (Raise e)]: opening or
    decoding it raises). *)
Record rootdir : Type := mkRoot {
  listing : list entry;
  gitignore : option (res (list str))
}.

Definition empty_root : rootdir := mkRoot [] None.

Definition path_eqb (p q : Path) : bool :=
  PyStr.eqb (anchor p) (anchor q) && PurePath.parts_eqb (parts p) (parts q).

Fixpoint lookup_dir (p : Path) (ds : list (Path * rootdir)) : option rootdir :=
  match ds with
  | [] => None
  | (q, d) :: r => if path_eqb p q then Some d else lookup_dir p r
  end.

Definition remove_dir (p : Path) (ds : list (Path * rootdir)) : list (Path * rootdir) :=
  filter (fun qd => negb (path_eqb p (fst qd))) ds.

(** The regular files of a listing, in listing order ([nondirs] of
    [os.walk]). *)
Fixpoint nondirs (es : list entry) : list (str * file) :=
  match es with
  | [] => []
  | File n f :: r => (n, f) :: nondirs r
  | Dir _ _ :: r => nondirs r
  end.

(** [os.walk(top)], top-down: a directory yields its own pair (path,
    files) first and then what its sub-directories yield, in listing order.
    The caller prunes the yielded [dirs] list in place before the generator
    resumes; [keep] is the test the caller's pruning applies to each name. *)
Fixpoint walk_entry (keep : str -> bool) (top : Path) (e : entry)
  : list (Path * list (str * file)) :=
  match e with
  | File _ _ => []
  | Dir n children =>
      if keep n then
        (PurePath.joinpath top n, nondirs children)
          :: flat_map (walk_entry keep (PurePath.joinpath top n)) children
      else []
  end.

Definition os_walk (keep : str -> bool) (top : Path) (es : list entry)
  : list (Path * list (str * file)) :=
  (top, nondirs es) :: flat_map (walk_entry keep top) es.

(* ------------------------------------------------------------------ *)
(** ** The output file and the console *)

(** One call of [outfile.write]. *)
Inductive chunk : Type :=
| RepoHeader (repo_path : Path)
| RepoRule
| FileHeader (relative_path : Path)
| FileRule
| FileContent (content : str).

Definition chunk_text (c : chunk) : str :=
  match c with
  | RepoHeader p => lit "# Repository: " ++ PurePath.to_str p ++ [10%N]
  | RepoRule => times 61 50 ++ [10%N; 10%N]
  | FileHeader p => lit "### SOURCE FILE: " ++ PurePath.to_str p ++ [10%N]
  | FileRule => times 45 50 ++ [10%N]
  | FileContent c => c ++ [10%N; 10%N]
  end.

(** The text of a file that was written by these calls. *)
Definition artifact_text (cs : list chunk) : str := flat_map chunk_text cs.

(** What the logger and the console show (the text of the exception that a
    message quotes is left out). *)
Inductive event : Type :=
| WarnChecking (file_path : Path)
| WarnReading (file_path : Path)
| ErrProcessing (file_path : Path)
| ErrConversion
| PrintGithub
| PrintSuccess
| PrintProcessed (processed_files : nat)
| PrintOutput (output_path : Path).

(** The world a run acts on: the console, the file at the output path
    ([None]: it does not exist) and the directories runs are started on. *)
Record state : Type := mkState {
  console : list event;
  outfile : option (list chunk);
  dirs : list (Path * rootdir)
}.

(* ------------------------------------------------------------------ *)
(** ** State and exceptions *)

Definition M (A : Type) : Type := state -> res A * state.

Definition ret {A} (a : A) : M A := fun s => (Ok a, s).

Definition bind {A B} (c : M A) (k : A -> M B) : M B :=
  fun s => match c s with
           | (Ok a, s') => k a s'
           | (Raise e, s') => (Raise e, s')
           end.

Definition raise {A} (e : exn) : M A := fun s => (Raise e, s).

Definition lift {A} (r : res A) : M A := fun s => (r, s).

(** [try: body except Exception: handler] *)
Definition try_except {A} (body : M A) (handler : exn -> M A) : M A :=
  fun s => match body s with
           | (Ok a, s') => (Ok a, s')
           | (Raise e, s') => handler e s'
           end.

Declare Scope py_scope.
Delimit Scope py_scope with py.
Notation "x <- c ;; k" := (bind c (fun x => k))
  (at level 100, c at next level, right associativity) : py_scope.
Notation "c ;; k" := (bind c (fun _ => k))
  (at level 100, right associativity) : py_scope.
Local Open Scope py_scope.

(** [logger.warning], [logger.error] and [console.print] *)
Definition emit (e : event) : M unit :=
  fun s => (Ok tt, mkState (console s ++ [e]) (outfile s) (dirs s)).

(** A [for] loop whose body updates a local variable. *)
Fixpoint for_each {A B} (l : list A) (body : A -> B -> M B) (acc : B) : M B :=
  match l with
  | [] => ret acc
  | x :: r => acc' <- body x acc ;; for_each r body acc'
  end.

(** [outfile.write(text)] on a file opened with [encoding='utf-8']: the text
    is encoded as a whole before any of it reaches the file. *)
Definition write (c : chunk) : M unit :=
  fun s => match outfile s with
           | Some o =>
               if utf8_encodable (chunk_text c)
               then (Ok tt, mkState (console s) (Some (o ++ [c])) (dirs s))
               else (Raise UnicodeEncodeError, s)
           | None => (Raise ValueError, s)
           end.

(** The directory at [p]; a path that names no directory has nothing to
    walk and no [.gitignore]. *)
Definition root_at (p : Path) : M rootdir :=
  fun s => (Ok (match lookup_dir p (dirs s) with
                | Some d => d
                | None => empty_root
                end), s).

(* ------------------------------------------------------------------ *)
(** ** class SourceCodeConverter *)

Record SourceCodeConverter : Type := mkConverter {
  max_file_size : Z;
  exclude_dirs : list str;
  gitignore_patterns : list str
}.

(** [__init__]: the size ceiling is given in KB. The pattern set starts
    empty; a set is kept as the list of its elements in iteration order. *)
Definition init (max_file_size : Z) : SourceCodeConverter :=
  mkConverter (max_file_size * 1024)
    (map lit [".git"; "node_modules"; ".venv"; "venv"; "__pycache__";
              "dist"; "build"]%string)
    [].

Definition mem (x : str) (l : list str) : bool := existsb (PyStr.eqb x) l.

(** [set.add] *)
Definition set_add (x : str) (l : list str) : list str :=
  if mem x l then l else l ++ [x].

(** The body of the loop of [load_gitignore]. *)
Definition add_line (pats : list str) (line : str) : list str :=
  let stripped := strip line in
  if negb (is_empty stripped) && negb (startswith stripped (lit "#"))
  then set_add stripped pats
  else pats.

Definition load_gitignore (self : SourceCodeConverter) (repo_path : Path)
  : M SourceCodeConverter :=
  d <- root_at repo_path ;;
  match gitignore d with
  | Some r =>
      lines <- lift r ;;
      ret (mkConverter (max_file_size self) (exclude_dirs self)
             (fold_left add_line lines (gitignore_patterns self)))
  | None => ret self
  end.

Definition null : Byte.byte := Byte.x00.

Definition has_null (b : bytes) : bool := existsb (Byte.eqb null) b.

(** [os.path.getsize] and [open(...).read()] on a file. *)
Definition getsize (f : file) : res N :=
  match f_size f with Some n => Ok n | None => Raise OSError end.

Definition read_bytes (f : file) : res bytes :=
  match f_data f with Some b => Ok b | None => Raise OSError end.

Definition is_text_file (self : SourceCodeConverter) (file_path : Path) (f : file)
  : M bool :=
  try_except
    (size <- lift (getsize f) ;;
     if (max_file_size self <? Z.of_N size)%Z then ret false
     else
       data <- lift (read_bytes f) ;;
       if has_null (firstn 1024 data) then ret false else ret true)
    (fun _ => emit (WarnChecking file_path) ;; ret false).

(* ------------------------------------------------------------------ *)
(** ** A concrete environment

    Instances of the library functions, used to run the model on concrete
    directories. Each is the library function restricted to the inputs the
    examples use: ASCII data, patterns without bracket expressions, one
    remote repository. *)

Module Sample.

Definition is_ascii (b : Byte.byte) : bool := (Byte.to_N b <? 128)%N.

(** [chardet] answers ['ascii'] on non-empty pure ASCII data and has no
    answer on empty data. *)
Definition detect (raw : bytes) : option str :=
  match raw with
  | [] => None
  | _ => if forallb is_ascii raw then Some (lit "ascii") else None
  end.

(** The ['ascii'] codec with [errors='ignore'] drops the bytes above 127;
    on ASCII data the ['utf-8'] codec agrees with it. Other names are not
    registered here. *)
Definition decode (encoding : str) (data : bytes) : res str :=
  if PyStr.eqb encoding (lit "ascii") || PyStr.eqb encoding (lit "utf-8")
  then Ok (map Byte.to_N (filter is_ascii data))
  else Raise LookupError.


(** [fnmatchcase] for patterns made of [*], [?] and literal characters. *)
Fixpoint glob (pat name : str) : bool :=
  match pat with
  | [] => is_empty name
  | c :: pat' =>
      if N.eqb c 42 then
        (fix star (n : str) : bool :=
           glob pat' n || match n with
                          | [] => false
                          | _ :: n' => star n'
                          end) name
      else
        match name with
        | [] => false
        | d :: name' => (N.eqb c 63 || N.eqb c d) && glob pat' name'
        end
  end.

Definition fnmatch (name pat : str) : bool := glob pat name.

Definition data (s : string) : bytes := list_byte_of_string s.

(** A readable file with the given content. *)
Definition text_file (s : string) : file :=
  mkFile (Some (N.of_nat (length (data s)))) (Some (data s)).

(** Scenario A of the specification: [a.txt] holds ["hello"], [b.bin]
    holds a null byte, and there is a [.git] directory. *)
Definition scenario_a : list entry :=
  [ File (lit "a.txt") (text_file "hello");
    File (lit "b.bin") (mkFile (Some 3%N) (Some [Byte.x01; Byte.x00; Byte.x02]));
    Dir (lit ".git") [File (lit "config") (text_file "[core]")] ].

Definition here : Path := PurePath.parse (lit "proj").
Definition out_txt : Path := PurePath.parse (lit "proj_output.txt").
Definition tmp : Path := PurePath.parse (lit "/tmp/tmpk3x9").

Definition world (es : list entry) (ignore : option (res (list str))) : state :=
  mkState [] None [(here, mkRoot es ignore)].

Definition always (p : Path) : bool := true.
Definition never (p : Path) : bool := false.

Definition url : str := lit "https://github.com/makwanadeepam/totxt".

Definition remote (repo_url : str) : option rootdir :=
  if PyStr.eqb repo_url url then Some (mkRoot scenario_a None) else None.

Definition offline (repo_url : str) : option rootdir := None.



(** A log file one directory down, and a pattern without any wildcard. *)
Definition logs_listing : list entry :=
  [Dir (lit "logs") [File (lit "run.log") (text_file "started")]].

(** A file with a Windows line ending: the four bytes of "a\r\nb". *)
Definition crlf_bytes : bytes := [Byte.x61; Byte.x0d; Byte.x0a; Byte.x62].

Definition crlf_file : file := mkFile (Some 4%N) (Some crlf_bytes).

Definition crlf_listing : list entry := [File (lit "a.txt") crlf_file].

(** The artifact of scenario A. *)
Definition a_txt : Path := mkPath [] [lit "a.txt"].

Definition artifact_a : list chunk :=
  [RepoHeader here; RepoRule; FileHeader a_txt; FileRule; FileContent (lit "hello")].


Definition with_patterns (pats : list string) : SourceCodeConverter :=
  mkConverter (100 * 1024) (exclude_dirs (init 100)) (map lit pats).

(** An ignore file with a pattern written twice, a comment and a blank
    line. *)
Definition ignore_lines : list str :=
  map lit ["*.log "; "# build output"; "   "; "*.log"]%string.

(** An ignore file whose only pattern has no component. *)
Definition dot_lines : list str := [lit "."].


End Sample.

Section Converter.

Set Default Proof Using "Type".
Set Proof Using Clear Unused.

(** [chardet.detect(raw)['encoding']]; [None] when the detector has no
    answer. *)
Variable chardet_detect : bytes -> option str.

(** Decoding under a named encoding with [errors='ignore']: undecodable
    sequences are left out of the result; an encoding the codec registry
    does not know raises. *)
Variable codec_decode : str -> bytes -> res str.

(** [fnmatch.fnmatchcase(name, pattern)] on one path component. *)
Variable fnmatchcase : str -> str -> bool.

(** [git clone url]: the tree the client leaves in the target directory;
    [None] when it exits with a non-zero status. *)
Variable git_clone : str -> option rootdir.

(** The directory [tempfile.TemporaryDirectory()] creates. *)
Variable temp_dir : Path.

(** Whether [open(path, 'w')] succeeds. *)
Variable can_open_w : Path -> bool.

(** [PurePath.match(pattern)] (CPython 3.11, POSIX flavour): an empty
    pattern is an error; a pattern with a root must have as many components
    as the path; a relative pattern is matched against the trailing
    components, one [fnmatchcase] per component ([zip] stops at the shorter
    list). *)
Fixpoint match_parts (ps pats : list str) : bool :=
  match ps, pats with
  | p :: ps', q :: pats' => fnmatchcase p q && match_parts ps' pats'
  | _, _ => true
  end.

Definition PurePath_match (self : Path) (path_pattern : str) : res bool :=
  let pat := PurePath.parse path_pattern in
  let pat_parts := PurePath.cparts pat in
  if length pat_parts =? 0 then Raise ValueError
  else if negb (is_empty (anchor pat))
          && negb (PyStr.eqb (anchor pat) (anchor self)) then Ok false
  else
    let parts := PurePath.cparts self in
    if negb (is_empty (anchor pat)) then
      if negb (length pat_parts =? length parts) then Ok false
      else Ok (match_parts (rev parts) (rev (tl pat_parts)))
    else if length parts <? length pat_parts then Ok false
    else Ok (match_parts (rev parts) (rev pat_parts)).

(** [any(rel_path.match(pattern) for pattern in patterns)] *)
Fixpoint any_match (rel_path : Path) (patterns : list str) : res bool :=
  match patterns with
  | [] => Ok false
  | pattern :: r =>
      match PurePath_match rel_path pattern with
      | Raise e => Raise e
      | Ok true => Ok true
      | Ok false => any_match rel_path r
      end
  end.

Definition is_ignored (self : SourceCodeConverter) (file_path repo_path : Path)
  : res bool :=
  match PurePath.relative_to file_path repo_path with
  | Raise e => Raise e
  | Ok rel_path => any_match rel_path (gitignore_patterns self)
  end.

Definition utf_8 : str := lit "utf-8".

Definition detect_encoding (f : file) : str :=
  match read_bytes f with
  | Ok data =>
      match chardet_detect (firstn 10000 data) with
      | Some enc => if is_empty enc then utf_8 else enc
      | None => utf_8
      end
  | Raise _ => utf_8
  end.

Definition read_source_file (file_path : Path) (f : file) : M str :=
  try_except
    (let encoding := detect_encoding f in
     data <- lift (read_bytes f) ;;
     text <- lift (codec_decode encoding data) ;;
     ret (universal_newlines text))
    (fun _ => emit (WarnReading file_path) ;; ret []).

(** The body of the inner loop of [convert_repository] for one file of the
    directory [root]. *)
Definition process_file (self : SourceCodeConverter) (repo_path root : Path)
  (file : str * file) (processed_files : nat) : M nat :=
  let file_path := PurePath.joinpath root (fst file) in
  text <- is_text_file self file_path (snd file) ;;
  selected <- (if text
               then ignored <- lift (is_ignored self file_path repo_path) ;;
                    ret (negb ignored)
               else ret false) ;;
  if selected then
    try_except
      (relative_path <- lift (PurePath.relative_to file_path repo_path) ;;
       write (FileHeader relative_path) ;;
       write FileRule ;;
       content <- read_source_file file_path (snd file) ;;
       write (FileContent content) ;;
       ret (processed_files + 1))
      (fun _ => emit (ErrProcessing file_path) ;; ret processed_files)
  else ret processed_files.

Definition keep_dir (self : SourceCodeConverter) (d : str) : bool :=
  negb (mem d (exclude_dirs self)).

(** [open(output_path, 'w', encoding='utf-8')]: the file is created or
    truncated. *)
Definition open_w (output_path : Path) : M unit :=
  fun s => if can_open_w output_path
           then (Ok tt, mkState (console s) (Some []) (dirs s))
           else (Raise OSError, s).

Definition convert_repository (self : SourceCodeConverter)
  (repo_path output_path : Path) : M unit :=
  self <- load_gitignore self repo_path ;;
  try_except
    (open_w output_path ;;
     write (RepoHeader repo_path) ;;
     write RepoRule ;;
     d <- root_at repo_path ;;
     processed_files <-
       for_each (os_walk (keep_dir self) repo_path (listing d))
         (fun rf n => for_each (snd rf) (process_file self repo_path (fst rf)) n)
         0 ;;
     emit PrintSuccess ;;
     emit (PrintProcessed processed_files) ;;
     emit (PrintOutput output_path))
    (fun _ => emit ErrConversion).

(** [with tempfile.TemporaryDirectory() as temp_dir: body]: the directory
    is created empty and removed when the block is left, also by an
    exception. *)
Definition with_TemporaryDirectory {A} (body : Path -> M A) : M A :=
  fun s =>
    let s1 := mkState (console s) (outfile s) ((temp_dir, empty_root) :: dirs s) in
    let (r, s2) := body temp_dir s1 in
    (r, mkState (console s2) (outfile s2) (remove_dir temp_dir (dirs s2))).

(** [subprocess.run(["git", "clone", repo_url, target], check=True)] *)
Definition run_git_clone (repo_url : str) (target : Path) : M unit :=
  fun s => match git_clone repo_url with
           | Some d => (Ok tt, mkState (console s) (outfile s)
                                 ((target, d) :: remove_dir target (dirs s)))
           | None => (Raise CalledProcessError, s)
           end.

Definition clone_and_convert (self : SourceCodeConverter) (repo_url : str)
  (output_path : Path) : M unit :=
  with_TemporaryDirectory (fun temp_path =>
    run_git_clone repo_url temp_path ;;
    convert_repository self temp_path output_path).

(** The command [convert]. *)
Definition convert (repo_path : str) (max_size : Z) (output : option Path)
  (verbose : bool) : M unit :=
  let output_file :=
    match output with
    | Some o => o
    | None => PurePath.parse
                (PurePath.stem (PurePath.parse repo_path) ++ lit "_output.txt")
    end in
  let converter := init max_size in
  if contains repo_path (lit "github.com") then
    emit PrintGithub ;;
    clone_and_convert converter repo_path output_file
  else convert_repository converter (PurePath.parse repo_path) output_file.


(* ------------------------------------------------------------------ *)
(** ** What one file and one run contribute

    The monadic code above is summarised by pure functions: the result of
    the text test, the content that is read, and the effect of the loop
    body on the output file, the console and the counter. The lemmas of the
    next part show that the code computes exactly these. *)

(** The value [is_text_file] returns. *)
Definition is_text (self : SourceCodeConverter) (f : file) : bool :=
  match f_size f, f_data f with
  | Some size, Some data =>
      negb (max_file_size self <? Z.of_N size)%Z
      && negb (has_null (firstn 1024 data))
  | _, _ => false
  end.

(** The warning [is_text_file] logs: the size or the content cannot be
    probed. *)
Definition check_events (self : SourceCodeConverter) (file_path : Path) (f : file)
  : list event :=
  match f_size f with
  | None => [WarnChecking file_path]
  | Some size =>
      if (max_file_size self <? Z.of_N size)%Z then []
      else match f_data f with
           | None => [WarnChecking file_path]
           | Some _ => []
           end
  end.

(** What [read_source_file] returns and logs. *)
Definition decoded (f : file) : res str :=
  match read_bytes f with
  | Ok data => codec_decode (detect_encoding f) data
  | Raise e => Raise e
  end.

Definition source_text (f : file) : str :=
  match decoded f with
  | Ok text => universal_newlines text
  | Raise _ => []
  end.

Definition read_events (file_path : Path) (f : file) : list event :=
  match decoded f with
  | Ok _ => []
  | Raise _ => [WarnReading file_path]
  end.

Record effect : Type := mkEffect {
  chunks : list chunk;
  events : list event;
  count : nat;
  raised : option exn
}.

Definition silent (evs : list event) : effect := mkEffect [] evs 0 None.

(** The effect of the [try] block of the loop body. *)
Definition section_effect (file_path : Path) (rel : res Path) (f : file) : effect :=
  match rel with
  | Raise _ => silent [ErrProcessing file_path]
  | Ok relative_path =>
      if utf8_encodable (chunk_text (FileHeader relative_path)) then
        if utf8_encodable (chunk_text (FileContent (source_text f))) then
          mkEffect [FileHeader relative_path; FileRule; FileContent (source_text f)]
            (read_events file_path f) 1 None
        else
          mkEffect [FileHeader relative_path; FileRule]
            (read_events file_path f ++ [ErrProcessing file_path]) 0 None
      else silent [ErrProcessing file_path]
  end.

(** The effect of the loop body on one file of the directory [root]. *)
Definition file_effect (self : SourceCodeConverter) (repo_path : Path)
  (rf : Path * (str * file)) : effect :=
  let file_path := PurePath.joinpath (fst rf) (fst (snd rf)) in
  let f := snd (snd rf) in
  if is_text self f then
    match is_ignored self file_path repo_path with
    | Raise e => mkEffect [] (check_events self file_path f) 0 (Some e)
    | Ok true => silent (check_events self file_path f)
    | Ok false =>
        let e := section_effect file_path
                   (PurePath.relative_to file_path repo_path) f in
        mkEffect (chunks e) (check_events self file_path f ++ events e)
          (count e) None
    end
  else silent (check_events self file_path f).

(** Effects in sequence: nothing happens after an exception. *)
Definition seq_effect (a b : effect) : effect :=
  match raised a with
  | Some _ => a
  | None => mkEffect (chunks a ++ chunks b) (events a ++ events b)
              (count a + count b) (raised b)
  end.

Definition no_effect : effect := silent [].

Definition loop_effect (self : SourceCodeConverter) (repo_path : Path)
  (l : list (Path * (str * file))) : effect :=
  fold_right (fun rf e => seq_effect (file_effect self repo_path rf) e)
    no_effect l.

(** The files the loops visit, each with the directory it is listed in. *)
Definition walk_files (keep : str -> bool) (top : Path) (es : list entry)
  : list (Path * (str * file)) :=
  flat_map (fun rf => map (pair (fst rf)) (snd rf)) (os_walk keep top es).

(** The state after an effect. *)
Definition after (e : effect) (o : list chunk) (s : state) : state :=
  mkState (console s ++ events e) (Some (o ++ chunks e)) (dirs s).

Definition outcome (e : effect) (n : nat) : res nat :=
  match raised e with
  | Some x => Raise x
  | None => Ok (n + count e)
  end.

(** The paths of the section headers of an output file, in order. *)
Fixpoint headers (cs : list chunk) : list Path :=
  match cs with
  | [] => []
  | FileHeader p :: r => p :: headers r
  | _ :: r => headers r
  end.

(** The events a run added to the console. *)
Definition new_events (s s' : state) : list event :=
  skipn (length (console s)) (console s').




(** The directory a run on [repo_path] reads in the state [s], the
    converter after [load_gitignore], and the effect of the traversal. *)
Definition root_of (repo_path : Path) (s : state) : rootdir :=
  match lookup_dir repo_path (dirs s) with
  | Some d => d
  | None => empty_root
  end.

Definition loaded (self : SourceCodeConverter) (repo_path : Path) (s : state)
  : res SourceCodeConverter :=
  fst (load_gitignore self repo_path s).

Definition visited (self : SourceCodeConverter) (repo_path : Path) (s : state)
  : list (Path * (str * file)) :=
  walk_files (keep_dir self) repo_path (listing (root_of repo_path s)).

Definition run_effect (self : SourceCodeConverter) (repo_path : Path) (s : state)
  : effect :=
  loop_effect self repo_path (visited self repo_path s).

Definition summary (e : effect) (output_path : Path) : list event :=
  match raised e with
  | Some _ => [ErrConversion]
  | None => [PrintSuccess; PrintProcessed (count e); PrintOutput output_path]
  end.

(** The result and the final state of [convert_repository], case by case. *)
Definition convert_result (self : SourceCodeConverter)
  (repo_path output_path : Path) (s : state) : res unit * state :=
  match loaded self repo_path s with
  | Raise e => (Raise e, s)
  | Ok self' =>
      if can_open_w output_path then
        if utf8_encodable (chunk_text (RepoHeader repo_path)) then
          let e := run_effect self' repo_path s in
          (Ok tt,
           mkState (console s ++ events e ++ summary e output_path)
             (Some ([RepoHeader repo_path; RepoRule] ++ chunks e))
             (dirs s))
        else (Ok tt, mkState (console s ++ [ErrConversion]) (Some []) (dirs s))
      else (Ok tt, mkState (console s ++ [ErrConversion]) (outfile s) (dirs s))
  end.

(** A file of a tree that [os.walk] reaches: it is listed in the top
    directory, or in a directory reached through kept names only. The list
    holds the names of the directories on the way. *)
Inductive reachable (keep : str -> bool)
  : list entry -> list str -> str -> file -> Prop :=
| reach_here (es : list entry) (n : str) (f : file) :
    In (File n f) es -> reachable keep es [] n f
| reach_below (es : list entry) (d : str) (children : list entry)
    (ds : list str) (n : str) (f : file) :
    In (Dir d children) es -> keep d = true ->
    reachable keep children ds n f ->
    reachable keep es (d :: ds) n f.

(** The visited files of a tree with the directories on the way, relative
    to the top, in the order of [os.walk]. *)
Definition in_dir (d : str) (x : list str * (str * file)) : list str * (str * file) :=
  (d :: fst x, snd x).

Fixpoint rel_entry (keep : str -> bool) (e : entry) : list (list str * (str * file)) :=
  match e with
  | File _ _ => []
  | Dir d children =>
      if keep d then
        map (in_dir d)
          (map (pair []) (nondirs children) ++ flat_map (rel_entry keep) children)
      else []
  end.

Definition rel_files (keep : str -> bool) (es : list entry)
  : list (list str * (str * file)) :=
  map (pair []) (nondirs es) ++ flat_map (rel_entry keep) es.

(** The relative path of a visited file. *)
Definition key (x : list str * (str * file)) : list str :=
  fst x ++ [fst (snd x)].

Definition rel_path (x : list str * (str * file)) : Path := mkPath [] (key x).

(** A path below [top]: [top / d1 / ... / dn]. *)
Definition extend (top : Path) (ds : list str) : Path :=
  mkPath (anchor top) (parts top ++ ds).

Definition below (top : Path) (x : list str * (str * file)) : Path * (str * file) :=
  (extend top (fst x), snd x).

(** The files of one pair that [os.walk] yields. *)
Definition files_of (rf : Path * list (str * file)) : list (Path * (str * file)) :=
  map (pair (fst rf)) (snd rf).

(** Induction over a tree, with the hypothesis for every child. *)
Fixpoint entry_rect' (P : entry -> Prop)
  (HF : forall n f, P (File n f))
  (HD : forall d children, Forall P children -> P (Dir d children))
  (e : entry) : P e :=
  match e with
  | File n f => HF n f
  | Dir d children =>
      HD d children
        ((fix all (l : list entry) : Forall P l :=
            match l with
            | [] => Forall_nil P
            | x :: r => Forall_cons x (entry_rect' P HF HD x) (all r)
            end) children)
  end.


(** A pattern on which [PurePath.match] raises: it has no component. *)
Definition empty_pattern (pattern : str) : bool :=
  length (PurePath.cparts (PurePath.parse pattern)) =? 0.

(** A visited file that passes both tests of the loop body, and one whose
    section header can be written as well. *)
Definition not_ignored (self : SourceCodeConverter) (rel : Path) : bool :=
  match any_match rel (gitignore_patterns self) with
  | Ok false => true
  | _ => false
  end.

Definition selected (self : SourceCodeConverter) (x : list str * (str * file)) : bool :=
  is_text self (snd (snd x)) && not_ignored self (rel_path x).


(** The events the loop body can add. *)
Definition per_file (ev : event) : bool :=
  match ev with
  | WarnChecking _ | WarnReading _ | ErrProcessing _ => true
  | _ => false
  end.

Definition is_processing_error (ev : event) : bool :=
  match ev with
  | ErrProcessing _ => true
  | _ => false
  end.


(** A line of the ignore file that becomes a pattern. *)
Definition pattern_line (line : str) : bool :=
  negb (is_empty (strip line)) && negb (startswith (strip line) (lit "#")).



(** The state in which the conversion of a cloned repository starts: the
    temporary directory holds what the client left in it. *)
Definition cloned (d : rootdir) (s : state) : state :=
  mkState (console s) (outfile s)
    ((temp_dir, d) :: remove_dir temp_dir ((temp_dir, empty_root) :: dirs s)).

(* ------------------------------------------------------------------ *)
(** ** Further notions used below *)

(** A directory-entry name: not empty, not ["."], without a separator. *)
Definition valid_name (x : str) : bool :=
  PurePath.keep_part x && negb (existsb (N.eqb PurePath.slash) x).

(** The chunks after the repository header form sections: a header and a
    rule, followed by the content unless writing it failed. *)
Fixpoint sections_ok (cs : list chunk) : bool :=
  match cs with
  | [] => true
  | FileHeader _ :: FileRule :: FileContent _ :: r => sections_ok r
  | FileHeader _ :: FileRule :: r => sections_ok r
  | _ => false
  end.

(** A chunk that [write] accepts. *)
Definition encodable_chunk (c : chunk) : bool := utf8_encodable (chunk_text c).

(** The first and the last character of a string are not whitespace. *)
Definition trimmed (s : str) : bool :=
  match s with
  | [] => true
  | c :: _ => negb (isspace c) && negb (isspace (last s c))
  end.


(* ------------------------------------------------------------------ *)
(** ** Strings and paths *)

Lemma eqb_eq (a b : str) : PyStr.eqb a b = true <-> a = b.
Proof.
  revert b. induction a as [|x a IH]; destruct b as [|y b]; simpl;
    try (split; [discriminate | congruence]); try tauto.
  rewrite andb_true_iff, N.eqb_eq, IH. split.
  - intros [-> ->]. reflexivity.
  - intros H. injection H as -> ->. auto.
Qed.

Lemma eqb_refl (a : str) : PyStr.eqb a a = true.
Proof. apply eqb_eq. reflexivity. Qed.

Lemma parts_eqb_eq (a b : list str) : PurePath.parts_eqb a b = true <-> a = b.
Proof.
  revert b. induction a as [|x a IH]; destruct b as [|y b]; simpl;
    try (split; [discriminate | congruence]); try tauto.
  rewrite andb_true_iff, eqb_eq, IH. split.
  - intros [-> ->]. reflexivity.
  - intros H. injection H as -> ->. auto.
Qed.

Lemma path_eqb_eq (p q : Path) : path_eqb p q = true <-> p = q.
Proof.
  destruct p as [a ps], q as [b qs]. unfold path_eqb. simpl.
  rewrite andb_true_iff, eqb_eq, parts_eqb_eq. split.
  - intros [-> ->]. reflexivity.
  - intros H. injection H as -> ->. auto.
Qed.

Lemma path_eqb_refl (p : Path) : path_eqb p p = true.
Proof. apply path_eqb_eq. reflexivity. Qed.

Lemma mem_In (x : str) (l : list str) : mem x l = true <-> In x l.
Proof.
  unfold mem. rewrite existsb_exists. split.
  - intros [y [Hy E]]. apply eqb_eq in E. subst. exact Hy.
  - intros H. exists x. split; [exact H | apply eqb_refl].
Qed.

Lemma mem_false (x : str) (l : list str) : mem x l = false <-> ~ In x l.
Proof.
  rewrite <- mem_In. destruct (mem x l); split; intros; congruence.
Qed.

Lemma strip_prefix_app (pre l : list str) :
  PurePath.strip_prefix pre (pre ++ l) = Some l.
Proof.
  induction pre as [|x pre IH]; simpl; [reflexivity|].
  rewrite eqb_refl. exact IH.
Qed.

Lemma extend_nil (top : Path) : extend top [] = top.
Proof. destruct top. unfold extend. simpl. rewrite app_nil_r. reflexivity. Qed.

Lemma joinpath_extend (top : Path) (ds : list str) (n : str) :
  PurePath.joinpath (extend top ds) n = extend top (ds ++ [n]).
Proof. unfold PurePath.joinpath, extend. simpl. rewrite app_assoc. reflexivity. Qed.

Lemma relative_to_extend (top : Path) (ds : list str) :
  PurePath.relative_to (extend top ds) top = Ok (mkPath [] ds).
Proof.
  unfold PurePath.relative_to, extend. simpl.
  rewrite eqb_refl, strip_prefix_app. reflexivity.
Qed.

(* ------------------------------------------------------------------ *)
(** ** The methods compute their summaries *)

Lemma state_eta (s : state) : mkState (console s) (outfile s) (dirs s) = s.
Proof. destruct s. reflexivity. Qed.

Lemma is_text_file_run (self : SourceCodeConverter) (p : Path) (f : file) (s : state) :
  is_text_file self p f s
  = (Ok (is_text self f),
     mkState (console s ++ check_events self p f) (outfile s) (dirs s)).
Proof.
  destruct s as [c o d].
  unfold is_text_file, is_text, check_events, try_except, bind, lift, ret,
    emit, getsize, read_bytes.
  destruct f as [[size|] [data|]]; cbv [f_size f_data console outfile dirs];
    try destruct (max_file_size self <? Z.of_N size)%Z; cbv beta iota;
    try destruct (has_null (firstn 1024 data)); cbv beta iota;
    cbv [negb andb]; rewrite ?app_nil_r; reflexivity.
Qed.

Lemma read_source_file_run (p : Path) (f : file) (s : state) :
  read_source_file p f s
  = (Ok (source_text f),
     mkState (console s ++ read_events p f) (outfile s) (dirs s)).
Proof.
  unfold read_source_file, source_text, read_events, decoded, try_except,
    bind, lift, ret, emit.
  destruct (read_bytes f) as [data|e]; simpl.
  - destruct (codec_decode (detect_encoding f) data); simpl;
      rewrite ?app_nil_r, ?state_eta; reflexivity.
  - reflexivity.
Qed.

Lemma write_ok (c : chunk) (o : list chunk) (s : state) :
  outfile s = Some o -> utf8_encodable (chunk_text c) = true ->
  write c s = (Ok tt, mkState (console s) (Some (o ++ [c])) (dirs s)).
Proof. intros Ho Hc. unfold write. rewrite Ho, Hc. reflexivity. Qed.

Lemma write_fails (c : chunk) (o : list chunk) (s : state) :
  outfile s = Some o -> utf8_encodable (chunk_text c) = false ->
  write c s = (Raise UnicodeEncodeError, s).
Proof. intros Ho Hc. unfold write. rewrite Ho, Hc. reflexivity. Qed.

Lemma rule_encodable : utf8_encodable (chunk_text FileRule) = true.
Proof. reflexivity. Qed.

Lemma repo_rule_encodable : utf8_encodable (chunk_text RepoRule) = true.
Proof. reflexivity. Qed.

Opaque chunk_text utf8_encodable.

Lemma process_file_run (self : SourceCodeConverter) (repo_path root : Path)
  (file : str * file) (n : nat) (o : list chunk) (s : state) :
  outfile s = Some o ->
  process_file self repo_path root file n s
  = (outcome (file_effect self repo_path (root, file)) n,
     after (file_effect self repo_path (root, file)) o s).
Proof.
  intros Ho. destruct file as [name f].
  unfold process_file, file_effect, bind at 1. simpl fst. simpl snd.
  rewrite is_text_file_run.
  destruct (is_text self f); simpl.
  2:{ unfold ret, outcome, after. simpl.
      rewrite Nat.add_0_r, app_nil_r, Ho. reflexivity. }
  unfold bind at 1. unfold bind at 1. unfold lift at 1.
  destruct (is_ignored self (PurePath.joinpath root name) repo_path)
    as [[|]|e]; simpl.
  - unfold ret, outcome, after. simpl.
    rewrite Nat.add_0_r, app_nil_r, Ho. reflexivity.
  - unfold section_effect, try_except, bind at 1, lift at 1.
    destruct (PurePath.relative_to (PurePath.joinpath root name) repo_path)
      as [rel|e]; simpl.
    + unfold bind at 1.
      destruct (utf8_encodable (chunk_text (FileHeader rel))) eqn:Hh.
      * rewrite (write_ok (FileHeader rel) (o)) by (cbn [outfile]; first [assumption | reflexivity]).
        unfold bind at 1.
        rewrite (write_ok FileRule (o ++ [FileHeader rel]))
          by (first [reflexivity | apply rule_encodable]).
        unfold bind at 1. rewrite read_source_file_run. simpl.
        unfold bind at 1.
        destruct (utf8_encodable (chunk_text (FileContent (source_text f)))) eqn:Hc.
        -- rewrite (write_ok (FileContent (source_text f))
                      ((o ++ [FileHeader rel]) ++ [FileRule]))
             by (cbn [outfile]; first [assumption | reflexivity]).
           unfold ret, outcome, after. simpl.
           rewrite <- ?app_assoc. simpl. rewrite <- ?app_assoc. reflexivity.
        -- rewrite (write_fails (FileContent (source_text f))
                      ((o ++ [FileHeader rel]) ++ [FileRule]))
             by (cbn [outfile]; first [assumption | reflexivity]).
           unfold bind, emit, ret, outcome, after. simpl.
           rewrite Nat.add_0_r, <- ?app_assoc. simpl. reflexivity.
      * rewrite (write_fails (FileHeader rel) (o)) by (cbn [outfile]; first [assumption | reflexivity]).
        unfold bind, emit, ret, outcome, after. simpl.
        rewrite Nat.add_0_r, app_nil_r, Ho, <- ?app_assoc. reflexivity.
    + unfold bind, emit, ret, outcome, after. simpl.
      rewrite Nat.add_0_r, app_nil_r, Ho, <- ?app_assoc. reflexivity.
  - unfold outcome, after. simpl. rewrite app_nil_r, Ho. reflexivity.
Qed.

Transparent chunk_text utf8_encodable.

(* ------------------------------------------------------------------ *)
(** ** The loops *)

Lemma for_each_app {A B} (l1 l2 : list A) (body : A -> B -> M B) (n : B) (s : state) :
  for_each (l1 ++ l2) body n s
  = (n' <- for_each l1 body n ;; for_each l2 body n') s.
Proof.
  revert n s. induction l1 as [|x l1 IH]; intros n s; simpl.
  - reflexivity.
  - unfold bind. destruct (body x n s) as [[n'|e] s']; [|reflexivity].
    rewrite IH. reflexivity.
Qed.

Lemma for_each_map {A B C} (g : A -> C) (l : list A) (body : C -> B -> M B)
  (n : B) (s : state) :
  for_each (map g l) body n s = for_each l (fun x => body (g x)) n s.
Proof.
  revert n s. induction l as [|x l IH]; intros n s; simpl; [reflexivity|].
  unfold bind. destruct (body (g x) n s) as [[n'|e] s']; [apply IH | reflexivity].
Qed.

(** The nested loops visit the files of [walk_files] one after the other. *)
Lemma for_each_nested {A B C} (l : list (A * list C)) (body : A -> C -> B -> M B)
  (n : B) (s : state) :
  for_each l (fun rf n => for_each (snd rf) (body (fst rf)) n) n s
  = for_each (flat_map (fun rf => map (pair (fst rf)) (snd rf)) l)
      (fun x => body (fst x) (snd x)) n s.
Proof.
  revert n s. induction l as [|[r fs] l IH]; intros n s; simpl; [reflexivity|].
  rewrite for_each_app. unfold bind. rewrite for_each_map. simpl.
  destruct (for_each fs (fun x => body r x) n s) as [[n'|e] s'] eqn:E.
  - replace (for_each fs (body r) n s) with (Ok n', s') by (rewrite <- E; reflexivity).
    apply IH.
  - replace (for_each fs (body r) n s) with (@Raise B e, s') by (rewrite <- E; reflexivity).
    reflexivity.
Qed.

Lemma outcome_seq (a b : effect) (n : nat) :
  raised a = None -> outcome (seq_effect a b) n = outcome b (n + count a).
Proof.
  intros H. unfold outcome, seq_effect. rewrite H. simpl.
  destruct (raised b); [reflexivity|]. rewrite Nat.add_assoc. reflexivity.
Qed.

Lemma after_seq (a b : effect) (o : list chunk) (s : state) :
  raised a = None ->
  after (seq_effect a b) o s = after b (o ++ chunks a) (after a o s).
Proof.
  intros H. unfold after, seq_effect. rewrite H. simpl.
  rewrite !app_assoc. reflexivity.
Qed.

Lemma seq_raised (a b : effect) (x : exn) :
  raised a = Some x -> seq_effect a b = a.
Proof. intros H. unfold seq_effect. rewrite H. reflexivity. Qed.

Lemma loop_run (self : SourceCodeConverter) (repo_path : Path)
  (l : list (Path * (str * file))) (n : nat) (o : list chunk) (s : state) :
  outfile s = Some o ->
  for_each l (fun x => process_file self repo_path (fst x) (snd x)) n s
  = (outcome (loop_effect self repo_path l) n,
     after (loop_effect self repo_path l) o s).
Proof.
  revert n o s. induction l as [|[root file] l IH]; intros n o s Ho.
  - simpl. unfold ret, outcome, after. simpl.
    rewrite Nat.add_0_r, !app_nil_r, <- Ho, state_eta. reflexivity.
  - simpl for_each. unfold bind. simpl fst. simpl snd.
    rewrite (process_file_run self repo_path root file n o s Ho).
    change (loop_effect self repo_path ((root, file) :: l))
      with (seq_effect (file_effect self repo_path (root, file))
              (loop_effect self repo_path l)).
    destruct (raised (file_effect self repo_path (root, file))) as [x|] eqn:R.
    + assert (O : outcome (file_effect self repo_path (root, file)) n = Raise x)
        by (unfold outcome; rewrite R; reflexivity).
      rewrite O, (seq_raised _ (loop_effect self repo_path l) _ R), O.
      reflexivity.
    + assert (O : outcome (file_effect self repo_path (root, file)) n
                  = Ok (n + count (file_effect self repo_path (root, file))))
        by (unfold outcome; rewrite R; reflexivity).
      rewrite O.
      rewrite (IH _ (o ++ chunks (file_effect self repo_path (root, file)))) by reflexivity.
      rewrite outcome_seq, after_seq by assumption. reflexivity.
Qed.

(** The whole traversal of [convert_repository]. *)
Lemma walk_run (self : SourceCodeConverter) (repo_path : Path) (es : list entry)
  (n : nat) (o : list chunk) (s : state) :
  outfile s = Some o ->
  for_each (os_walk (keep_dir self) repo_path es)
    (fun rf n => for_each (snd rf) (process_file self repo_path (fst rf)) n) n s
  = (outcome (loop_effect self repo_path (walk_files (keep_dir self) repo_path es)) n,
     after (loop_effect self repo_path (walk_files (keep_dir self) repo_path es)) o s).
Proof.
  intros Ho.
  rewrite (for_each_nested (os_walk (keep_dir self) repo_path es)
             (process_file self repo_path) n s).
  apply loop_run. exact Ho.
Qed.

(* ------------------------------------------------------------------ *)
(** ** A run of [convert_repository] *)

Lemma load_gitignore_state (self : SourceCodeConverter) (p : Path) (s : state) :
  snd (load_gitignore self p s) = s.
Proof.
  unfold load_gitignore, bind, root_at, lift, ret.
  destruct (gitignore _) as [[lines|e]|]; reflexivity.
Qed.

Opaque chunk_text utf8_encodable.

Theorem convert_run (self : SourceCodeConverter) (repo_path output_path : Path)
  (s : state) :
  convert_repository self repo_path output_path s
  = convert_result self repo_path output_path s.
Proof.
  unfold convert_repository, convert_result, loaded, bind at 1.
  pose proof (load_gitignore_state self repo_path s) as Hs.
  destruct (load_gitignore self repo_path s) as [[self'|e] s0]; simpl in Hs;
    subst s0; simpl fst; [|reflexivity].
  unfold try_except, bind at 1, open_w.
  destruct (can_open_w output_path); [|reflexivity].
  unfold bind at 1.
  destruct (utf8_encodable (chunk_text (RepoHeader repo_path))) eqn:Hh.
  2:{ rewrite (write_fails (RepoHeader repo_path) []) by (first [reflexivity | assumption]).
      reflexivity. }
  rewrite (write_ok (RepoHeader repo_path) []) by (first [reflexivity | assumption]).
  unfold bind at 1.
  rewrite (write_ok RepoRule [RepoHeader repo_path])
    by (first [reflexivity | apply repo_rule_encodable]).
  unfold bind at 1. unfold root_at at 1. cbn [dirs].
  unfold bind at 1.
  rewrite (walk_run self' repo_path _ 0 [RepoHeader repo_path; RepoRule])
    by reflexivity.
  fold (root_of repo_path s). fold (visited self' repo_path s).
  fold (run_effect self' repo_path s).
  unfold outcome, summary.
  destruct (raised (run_effect self' repo_path s)) as [x|].
  - unfold emit, after. cbn [console outfile dirs].
    rewrite <- app_assoc. reflexivity.
  - unfold bind, emit, after. cbn [console outfile dirs].
    rewrite <- !app_assoc. reflexivity.
Qed.

Transparent chunk_text utf8_encodable.

(* ------------------------------------------------------------------ *)
(** ** The traversal *)

Lemma forall_entries (P : entry -> Prop)
  (HF : forall n f, P (File n f))
  (HD : forall d children, Forall P children -> P (Dir d children))
  (es : list entry) : Forall P es.
Proof.
  induction es; constructor; [apply entry_rect'; assumption | assumption].
Qed.

Lemma extend_extend (top : Path) (d : str) (ds : list str) :
  extend (PurePath.joinpath top d) ds = extend top (d :: ds).
Proof.
  unfold extend, PurePath.joinpath. simpl. rewrite <- app_assoc. reflexivity.
Qed.

Lemma below_in_dir (top : Path) (d : str) (x : list str * (str * file)) :
  below (PurePath.joinpath top d) x = below top (in_dir d x).
Proof. unfold below, in_dir. simpl. rewrite extend_extend. reflexivity. Qed.

Lemma flat_map_flat_map {A B C} (g : B -> list C) (h : A -> list B) (l : list A) :
  flat_map g (flat_map h l) = flat_map (fun x => flat_map g (h x)) l.
Proof.
  induction l as [|x l IH]; simpl; [reflexivity|].
  rewrite flat_map_app, IH. reflexivity.
Qed.

Lemma map_flat_map {A B C} (g : B -> C) (h : A -> list B) (l : list A) :
  map g (flat_map h l) = flat_map (fun x => map g (h x)) l.
Proof.
  induction l as [|x l IH]; simpl; [reflexivity|].
  rewrite map_app, IH. reflexivity.
Qed.

Lemma flat_map_ext_Forall {A B} (g h : A -> list B) (l : list A) :
  Forall (fun x => g x = h x) l -> flat_map g l = flat_map h l.
Proof.
  induction 1 as [|x l E _ IH]; simpl; [reflexivity|].
  rewrite E, IH. reflexivity.
Qed.

Lemma walk_entry_rel (keep : str -> bool) (e : entry) :
  forall top,
    flat_map files_of (walk_entry keep top e)
    = map (below top) (rel_entry keep e).
Proof.
  induction e as [n f|d children IH] using entry_rect'; intros top.
  - reflexivity.
  - simpl. destruct (keep d); [|reflexivity].
    simpl. unfold files_of at 1. simpl.
    rewrite flat_map_flat_map.
    rewrite (flat_map_ext_Forall
               (fun x => flat_map files_of (walk_entry keep (PurePath.joinpath top d) x))
               (fun x => map (below (PurePath.joinpath top d)) (rel_entry keep x))).
    2:{ eapply Forall_impl; [|exact IH]. intros x Hx. apply Hx. }
    rewrite !map_app, !map_map, !map_flat_map.
    apply (f_equal2 (@app _)).
    + apply map_ext. intros [n f]. reflexivity.
    + apply flat_map_ext. intros x. apply map_ext.
      intros y. apply below_in_dir.
Qed.

Lemma walk_files_rel (keep : str -> bool) (top : Path) (es : list entry) :
  walk_files keep top es = map (below top) (rel_files keep es).
Proof.
  unfold walk_files, rel_files, os_walk. simpl.
  change (fun rf : Path * list (str * file) => map (pair (fst rf)) (snd rf))
    with files_of.
  rewrite flat_map_flat_map, map_app, map_map, map_flat_map.
  apply (f_equal2 (@app _)).
  - apply map_ext. intros [n f]. unfold below. simpl. rewrite extend_nil. reflexivity.
  - apply flat_map_ext. intros e. apply walk_entry_rel.
Qed.

Lemma In_nondirs (n : str) (f : file) (es : list entry) :
  In (n, f) (nondirs es) <-> In (File n f) es.
Proof.
  induction es as [|[m g|d ch] es IH]; simpl.
  - tauto.
  - rewrite IH. split; intros [H|H]; auto; left; congruence.
  - rewrite IH. split; [auto | intros [H|H]; [discriminate | exact H]].
Qed.

Lemma In_rel_files_split (keep : str -> bool) (es : list entry)
  (x : list str * (str * file)) :
  In x (rel_files keep es)
  <-> (fst x = [] /\ In (snd x) (nondirs es))
      \/ exists e, In e es /\ In x (rel_entry keep e).
Proof.
  unfold rel_files. rewrite in_app_iff, in_map_iff, in_flat_map.
  destruct x as [ds nf]. simpl. split.
  - intros [[y [E H]]|H]; [left | right; exact H].
    injection E as <- <-. auto.
  - intros [[-> H]|H]; [left | right; exact H]. exists nf. auto.
Qed.

Lemma In_rel_entry (keep : str -> bool) (e : entry) (x : list str * (str * file)) :
  In x (rel_entry keep e)
  <-> exists d children y,
        e = Dir d children /\ keep d = true /\ x = in_dir d y
        /\ In y (rel_files keep children).
Proof.
  destruct e as [n f|d children]; simpl.
  - split; [tauto | intros (d & ch & y & E & _); discriminate].
  - destruct (keep d) eqn:K.
    + fold (rel_files keep children). rewrite in_map_iff. split.
      * intros (y & E & H). exists d, children, y. auto.
      * intros (d' & ch' & y & E & _ & -> & H). injection E as <- <-.
        exists y. auto.
    + split; [intros []|]. intros (d' & ch' & y & E & K' & _). injection E as <- <-.
      congruence.
Qed.

Lemma reachable_rel_files (keep : str -> bool) (es : list entry)
  (ds : list str) (n : str) (f : file) :
  reachable keep es ds n f -> In (ds, (n, f)) (rel_files keep es).
Proof.
  induction 1 as [es n f H|es d ch ds n f Hd K _ IH];
    apply In_rel_files_split; simpl.
  - left. split; [reflexivity | apply In_nondirs; exact H].
  - right. exists (Dir d ch). split; [exact Hd|].
    apply In_rel_entry. exists d, ch, (ds, (n, f)). auto.
Qed.

Lemma rel_files_reachable (keep : str -> bool) (es : list entry) :
  forall ds n f, In (ds, (n, f)) (rel_files keep es) -> reachable keep es ds n f.
Proof.
  assert (A : Forall (fun e => forall d children, e = Dir d children ->
                        forall ds n f, In (ds, (n, f)) (rel_files keep children) ->
                                       reachable keep children ds n f) es).
  { apply forall_entries.
    - intros n f d ch E. discriminate.
    - intros d ch IH d' ch' E. injection E as <- <-.
      intros ds n f H. apply In_rel_files_split in H. simpl in H.
      destruct H as [[-> H]|(e & He & H)].
      + apply reach_here. apply In_nondirs. exact H.
      + apply In_rel_entry in H. destruct H as (d0 & ch0 & [ds0 nf0] & -> & K & E & H).
        injection E as -> <-.
        apply (reach_below keep ch d0 ch0 ds0 n f He K).
        rewrite Forall_forall in IH. exact (IH _ He d0 ch0 eq_refl ds0 n f H). }
  intros ds n f H. apply In_rel_files_split in H. simpl in H.
  destruct H as [[-> H]|(e & He & H)].
  - apply reach_here. apply In_nondirs. exact H.
  - apply In_rel_entry in H. destruct H as (d0 & ch0 & [ds0 nf0] & -> & K & E & H).
    injection E as -> <-.
    apply (reach_below keep es d0 ch0 ds0 n f He K).
    rewrite Forall_forall in A. exact (A _ He d0 ch0 eq_refl ds0 n f H).
Qed.

Lemma reachable_kept (keep : str -> bool) (es : list entry)
  (ds : list str) (n : str) (f : file) :
  reachable keep es ds n f -> forallb keep ds = true.
Proof.
  induction 1 as [|es d ch ds n f _ K _ IH]; simpl; [reflexivity|].
  rewrite K, IH. reflexivity.
Qed.

(** *** Unique names give unique paths *)










(* ------------------------------------------------------------------ *)
(** ** Ignore patterns *)

Lemma match_raises (rel : Path) (pattern : str) :
  PurePath_match rel pattern = Raise ValueError <-> empty_pattern pattern = true.
Proof.
  unfold PurePath_match, empty_pattern.
  destruct (length (PurePath.cparts (PurePath.parse pattern)) =? 0).
  - tauto.
  - split; [|discriminate].
    repeat match goal with |- context [if ?b then _ else _] => destruct b end;
      discriminate.
Qed.

Lemma match_total (rel : Path) (pattern : str) :
  empty_pattern pattern = false ->
  exists b, PurePath_match rel pattern = Ok b.
Proof.
  unfold PurePath_match, empty_pattern. intros ->.
  repeat match goal with |- context [if ?b then _ else _] => destruct b end;
    eexists; reflexivity.
Qed.


Lemma any_match_false (rel : Path) (pats : list str) :
  any_match rel pats = Ok false
  <-> forall p, In p pats -> PurePath_match rel p = Ok false.
Proof.
  induction pats as [|q pats IH]; simpl.
  - split; [intros _ p [] | reflexivity].
  - destruct (PurePath_match rel q) as [[|]|e] eqn:E.
    + split; [discriminate|]. intros H. specialize (H q (or_introl eq_refl)).
      congruence.
    + rewrite IH. split.
      * intros H p [<-|Hp]; auto.
      * intros H p Hp. apply H. auto.
    + split; [discriminate|]. intros H. specialize (H q (or_introl eq_refl)).
      congruence.
Qed.




(** With an empty pattern no file passes the test. *)
Lemma empty_pattern_blocks (rel : Path) (pats : list str) :
  existsb empty_pattern pats = true -> any_match rel pats <> Ok false.
Proof.
  intros H F. apply existsb_exists in H. destruct H as (p & Hp & E).
  rewrite any_match_false in F. specialize (F p Hp).
  apply (match_raises rel) in E. congruence.
Qed.

Lemma not_ignored_spec (self : SourceCodeConverter) (rel : Path) :
  not_ignored self rel = true
  <-> any_match rel (gitignore_patterns self) = Ok false.
Proof.
  unfold not_ignored.
  destruct (any_match rel (gitignore_patterns self)) as [[|]|e];
    split; congruence.
Qed.

(* ------------------------------------------------------------------ *)
(** ** The effect of a visited file *)

Lemma relative_to_visited (repo_path : Path) (x : list str * (str * file)) :
  PurePath.relative_to
    (PurePath.joinpath (fst (below repo_path x)) (fst (snd (below repo_path x))))
    repo_path
  = Ok (rel_path x).
Proof.
  destruct x as [ds [n f]]. unfold below. simpl.
  rewrite joinpath_extend. apply relative_to_extend.
Qed.

Lemma is_ignored_visited (self : SourceCodeConverter) (repo_path : Path)
  (x : list str * (str * file)) :
  is_ignored self
    (PurePath.joinpath (fst (below repo_path x)) (fst (snd (below repo_path x))))
    repo_path
  = any_match (rel_path x) (gitignore_patterns self).
Proof. unfold is_ignored. rewrite relative_to_visited. reflexivity. Qed.

Lemma headers_app (a b : list chunk) : headers (a ++ b) = headers a ++ headers b.
Proof.
  induction a as [|c a IH]; simpl; [reflexivity|].
  destruct c; simpl; rewrite IH; reflexivity.
Qed.

Lemma In_headers (p : Path) (cs : list chunk) :
  In p (headers cs) <-> In (FileHeader p) cs.
Proof.
  induction cs as [|c cs IH]; simpl; [tauto|].
  destruct c; simpl; rewrite IH; intuition (try discriminate; try congruence).
Qed.




Lemma file_chunks_selected (self : SourceCodeConverter) (repo_path : Path)
  (x : list str * (str * file)) :
  selected self x = false ->
  chunks (file_effect self repo_path (below repo_path x)) = [].
Proof.
  unfold file_effect, selected, not_ignored. rewrite is_ignored_visited.
  change (snd (snd (below repo_path x))) with (snd (snd x)).
  destruct (is_text self (snd (snd x))); [|reflexivity].
  destruct (any_match (rel_path x) (gitignore_patterns self)) as [[|]|e];
    try reflexivity.
  discriminate.
Qed.

(** *** Loops over visited files *)

Lemma loop_cons (self : SourceCodeConverter) (repo_path : Path)
  (rf : Path * (str * file)) (l : list (Path * (str * file))) :
  loop_effect self repo_path (rf :: l)
  = seq_effect (file_effect self repo_path rf) (loop_effect self repo_path l).
Proof. reflexivity. Qed.


(** Whatever is written was written for some file of the list. *)
Lemma loop_chunks_In (self : SourceCodeConverter) (repo_path : Path)
  (l : list (Path * (str * file))) (c : chunk) :
  In c (chunks (loop_effect self repo_path l)) ->
  exists rf, In rf l /\ In c (chunks (file_effect self repo_path rf)).
Proof.
  induction l as [|rf l IH]; [intros H; simpl in H; contradiction|].
  rewrite loop_cons. unfold seq_effect.
  destruct (raised (file_effect self repo_path rf)).
  - intros H. exists rf. split; [left; reflexivity | exact H].
  - cbn [chunks]. rewrite in_app_iff. intros [H|H].
    + exists rf. split; [left; reflexivity | exact H].
    + destruct (IH H) as (rf' & Hl & Hc). exists rf'. split; [right|]; assumption.
Qed.



(** An aborted run wrote no section at all. *)
Lemma loop_aborted (self : SourceCodeConverter) (repo_path : Path)
  (l : list (list str * (str * file))) :
  existsb empty_pattern (gitignore_patterns self) = true ->
  chunks (loop_effect self repo_path (map (below repo_path) l)) = [].
Proof.
  intros H. induction l as [|x l IH]; [reflexivity|].
  cbn [map]. rewrite loop_cons. unfold seq_effect.
  assert (C : chunks (file_effect self repo_path (below repo_path x)) = []).
  { apply file_chunks_selected. unfold selected.
    destruct (not_ignored self (rel_path x)) eqn:N; [|apply andb_false_r].
    apply not_ignored_spec in N. exfalso.
    exact (empty_pattern_blocks _ _ H N). }
  destruct (raised (file_effect self repo_path (below repo_path x)));
    [exact C|]. cbn [chunks]. rewrite C, IH. reflexivity.
Qed.

(* ------------------------------------------------------------------ *)
(** ** The tests, the chunks and the events of a file *)

Lemma is_text_spec (self : SourceCodeConverter) (f : file) :
  is_text self f = true
  <-> exists size data,
        f_size f = Some size /\ (Z.of_N size <= max_file_size self)%Z
        /\ f_data f = Some data /\ has_null (firstn 1024 data) = false.
Proof.
  unfold is_text. destruct (f_size f) as [size|], (f_data f) as [data|].
  - rewrite andb_true_iff, !negb_true_iff, Z.ltb_ge. split.
    + intros [H1 H2]. exists size, data. auto.
    + intros (sz & dt & E1 & H1 & E2 & H2). injection E1 as <-. injection E2 as <-.
      auto.
  - split; [discriminate | intros (sz & dt & _ & _ & E & _); discriminate].
  - split; [discriminate | intros (sz & dt & E & _); discriminate].
  - split; [discriminate | intros (sz & dt & E & _); discriminate].
Qed.

Lemma is_text_file_value (self : SourceCodeConverter) (p : Path) (f : file) (s : state) :
  fst (is_text_file self p f s) = Ok (is_text self f).
Proof. rewrite is_text_file_run. reflexivity. Qed.

Lemma section_chunk_cases (file_path rel : Path) (f : file) (c : chunk) :
  In c (chunks (section_effect file_path (Ok rel) f)) ->
  c = FileHeader rel \/ c = FileRule \/ c = FileContent (source_text f).
Proof.
  unfold section_effect.
  destruct (utf8_encodable (chunk_text (FileHeader rel)));
    [destruct (utf8_encodable (chunk_text (FileContent (source_text f))))|];
    simpl; intuition auto.
Qed.

Lemma file_chunk_cases (self : SourceCodeConverter) (repo_path : Path)
  (x : list str * (str * file)) (c : chunk) :
  In c (chunks (file_effect self repo_path (below repo_path x))) ->
  selected self x = true
  /\ (c = FileHeader (rel_path x) \/ c = FileRule
      \/ c = FileContent (source_text (snd (snd x)))).
Proof.
  destruct (selected self x) eqn:S.
  - intros H. split; [reflexivity|].
    revert H. unfold file_effect. rewrite is_ignored_visited, relative_to_visited.
    change (snd (snd (below repo_path x))) with (snd (snd x)).
    destruct (is_text self (snd (snd x))); [|intros []].
    destruct (any_match (rel_path x) (gitignore_patterns self)) as [[|]|e];
      try (intros []).
    cbn [chunks]. apply section_chunk_cases.
  - rewrite (file_chunks_selected _ _ _ S). intros [].
Qed.

Lemma check_events_per_file (self : SourceCodeConverter) (p : Path) (f : file) :
  forallb per_file (check_events self p f) = true.
Proof.
  unfold check_events. destruct (f_size f); [|reflexivity].
  destruct (_ <? _)%Z; [reflexivity|]. destruct (f_data f); reflexivity.
Qed.

Lemma read_events_per_file (p : Path) (f : file) :
  forallb per_file (read_events p f) = true.
Proof. unfold read_events. destruct (decoded f); reflexivity. Qed.

Lemma forallb_app' {A} (g : A -> bool) (a b : list A) :
  forallb g a = true -> forallb g b = true -> forallb g (a ++ b) = true.
Proof. intros Ha Hb. rewrite forallb_app, Ha, Hb. reflexivity. Qed.

Lemma file_events_per_file (self : SourceCodeConverter) (repo_path : Path)
  (rf : Path * (str * file)) :
  forallb per_file (events (file_effect self repo_path rf)) = true.
Proof.
  unfold file_effect.
  destruct (is_text self _); [|apply check_events_per_file].
  destruct (is_ignored self _ repo_path) as [[|]|e];
    try apply check_events_per_file.
  cbn [events]. apply forallb_app'; [apply check_events_per_file|].
  unfold section_effect.
  destruct (PurePath.relative_to _ repo_path) as [rel|e]; [|reflexivity].
  destruct (utf8_encodable (chunk_text (FileHeader rel))); [|reflexivity].
  destruct (utf8_encodable (chunk_text (FileContent _))); cbn [events].
  - apply read_events_per_file.
  - apply forallb_app'; [apply read_events_per_file | reflexivity].
Qed.

Lemma loop_events_per_file (self : SourceCodeConverter) (repo_path : Path)
  (l : list (Path * (str * file))) :
  forallb per_file (events (loop_effect self repo_path l)) = true.
Proof.
  induction l as [|rf l IH]; [reflexivity|].
  rewrite loop_cons. unfold seq_effect.
  destruct (raised (file_effect self repo_path rf)).
  - apply file_events_per_file.
  - cbn [events]. apply forallb_app'; [apply file_events_per_file | exact IH].
Qed.

(** Without a processing error the counter is the number of headers. *)
Lemma file_count_headers (self : SourceCodeConverter) (repo_path : Path)
  (rf : Path * (str * file)) :
  existsb is_processing_error (events (file_effect self repo_path rf)) = false ->
  count (file_effect self repo_path rf)
  = length (headers (chunks (file_effect self repo_path rf))).
Proof.
  unfold file_effect.
  destruct (is_text self _); [|reflexivity].
  destruct (is_ignored self _ repo_path) as [[|]|e]; try reflexivity.
  cbn [events count chunks]. rewrite existsb_app. intros H.
  apply orb_false_iff in H. destruct H as [_ H]. revert H.
  unfold section_effect.
  destruct (PurePath.relative_to _ repo_path) as [rel|e]; [|reflexivity].
  destruct (utf8_encodable (chunk_text (FileHeader rel))); [|reflexivity].
  destruct (utf8_encodable (chunk_text (FileContent _))); cbn [events count chunks].
  - reflexivity.
  - rewrite existsb_app. simpl. rewrite orb_true_r. discriminate.
Qed.

Lemma loop_count_headers (self : SourceCodeConverter) (repo_path : Path)
  (l : list (Path * (str * file))) :
  existsb is_processing_error (events (loop_effect self repo_path l)) = false ->
  count (loop_effect self repo_path l)
  = length (headers (chunks (loop_effect self repo_path l))).
Proof.
  induction l as [|rf l IH]; [reflexivity|].
  rewrite loop_cons. unfold seq_effect.
  destruct (raised (file_effect self repo_path rf)).
  - apply file_count_headers.
  - cbn [events count chunks]. rewrite existsb_app. intros H.
    apply orb_false_iff in H. destruct H as [H1 H2].
    rewrite headers_app, length_app, (file_count_headers _ _ _ H1), (IH H2).
    reflexivity.
Qed.

Lemma skipn_app_exact {A} (a b : list A) : skipn (length a) (a ++ b) = b.
Proof. induction a as [|x a IH]; simpl; auto. Qed.


(* ------------------------------------------------------------------ *)
(** ** Facts about a whole run *)

Lemma visited_rel (self : SourceCodeConverter) (repo_path : Path) (s : state) :
  visited self repo_path s
  = map (below repo_path)
      (rel_files (keep_dir self) (listing (root_of repo_path s))).
Proof. unfold visited. apply walk_files_rel. Qed.


Lemma run_outfile (self self' : SourceCodeConverter) (repo_path output_path : Path)
  (s : state) :
  loaded self repo_path s = Ok self' ->
  can_open_w output_path = true ->
  outfile (snd (convert_repository self repo_path output_path s))
  = Some (if utf8_encodable (chunk_text (RepoHeader repo_path))
          then [RepoHeader repo_path; RepoRule]
                 ++ chunks (run_effect self' repo_path s)
          else []).
Proof.
  intros L O. rewrite convert_run. unfold convert_result. rewrite L, O.
  destruct (utf8_encodable _); reflexivity.
Qed.

Lemma run_new_events (self self' : SourceCodeConverter) (repo_path output_path : Path)
  (s : state) :
  loaded self repo_path s = Ok self' ->
  new_events s (snd (convert_repository self repo_path output_path s))
  = if can_open_w output_path
       && utf8_encodable (chunk_text (RepoHeader repo_path))
    then events (run_effect self' repo_path s)
           ++ summary (run_effect self' repo_path s) output_path
    else [ErrConversion].
Proof.
  intros L. rewrite convert_run. unfold convert_result, new_events. rewrite L.
  destruct (can_open_w output_path); cbn [andb];
    [destruct (utf8_encodable _)|]; cbn [snd console]; apply skipn_app_exact.
Qed.

Lemma per_file_not_In (l : list event) (ev : event) :
  forallb per_file l = true -> per_file ev = false -> ~ In ev l.
Proof.
  intros F E H. rewrite forallb_forall in F. specialize (F ev H). congruence.
Qed.

(** A run that prints the success summary opened the output, wrote the
    header of the artifact and was not aborted. *)
Lemma run_success (self self' : SourceCodeConverter) (repo_path output_path : Path)
  (s : state) :
  loaded self repo_path s = Ok self' ->
  In PrintSuccess
    (new_events s (snd (convert_repository self repo_path output_path s))) ->
  can_open_w output_path = true
  /\ utf8_encodable (chunk_text (RepoHeader repo_path)) = true
  /\ raised (run_effect self' repo_path s) = None.
Proof.
  intros L. rewrite (run_new_events _ _ _ _ _ L).
  destruct (can_open_w output_path); cbn [andb];
    [destruct (utf8_encodable _)|];
    try (intros [H|[]]; discriminate).
  rewrite in_app_iff. intros [H|H].
  - exfalso. revert H. apply per_file_not_In; [|reflexivity].
    apply loop_events_per_file.
  - unfold summary in H. destruct (raised (run_effect self' repo_path s)).
    + destruct H as [H|[]]. discriminate.
    + auto.
Qed.

Lemma run_chunk_origin (self self' : SourceCodeConverter)
  (repo_path output_path : Path) (s : state) (cs : list chunk) (c : chunk) :
  loaded self repo_path s = Ok self' ->
  can_open_w output_path = true ->
  outfile (snd (convert_repository self repo_path output_path s)) = Some cs ->
  In c cs ->
  c = RepoHeader repo_path \/ c = RepoRule
  \/ exists x,
       In x (rel_files (keep_dir self') (listing (root_of repo_path s)))
       /\ selected self' x = true
       /\ (c = FileHeader (rel_path x) \/ c = FileRule
           \/ c = FileContent (source_text (snd (snd x)))).
Proof.
  intros L O E H. rewrite (run_outfile _ _ _ _ _ L O) in E. injection E as <-.
  destruct (utf8_encodable _); [|destruct H].
  destruct H as [<-|[<-|H]]; auto.
  right. right. unfold run_effect in H. rewrite visited_rel in H.
  apply loop_chunks_In in H. destruct H as (rf & Hrf & Hc).
  apply in_map_iff in Hrf. destruct Hrf as (x & <- & Hx).
  apply file_chunk_cases in Hc. destruct Hc as [S Hc].
  exists x. auto.
Qed.


(** The directories [os.walk] yields are reached through kept names. *)
Lemma walk_entry_roots (keep : str -> bool) (e : entry) :
  forall top root files,
    In (root, files) (walk_entry keep top e) ->
    exists ds, root = extend top ds /\ forallb keep ds = true.
Proof.
  induction e as [n f|d children IH] using entry_rect'; intros top root files.
  - intros [].
  - simpl. destruct (keep d) eqn:K; [|intros []].
    intros [H|H].
    + injection H as <- _. exists [d]. split; [reflexivity|].
      simpl. rewrite K. reflexivity.
    + apply in_flat_map in H. destruct H as (e & He & H).
      rewrite Forall_forall in IH.
      destruct (IH e He _ _ _ H) as (ds & -> & Hk).
      exists (d :: ds). split; [apply extend_extend|].
      simpl. rewrite K, Hk. reflexivity.
Qed.

Lemma os_walk_roots (keep : str -> bool) (top : Path) (es : list entry)
  (root : Path) (files : list (str * file)) :
  In (root, files) (os_walk keep top es) ->
  exists ds, root = extend top ds /\ forallb keep ds = true.
Proof.
  unfold os_walk. intros [H|H].
  - injection H as <- _. exists []. split; [symmetry; apply extend_nil | reflexivity].
  - apply in_flat_map in H. destruct H as (e & _ & H).
    exact (walk_entry_roots keep e _ _ _ H).
Qed.


Lemma check_events_text (self : SourceCodeConverter) (p : Path) (f : file) :
  is_text self f = true -> check_events self p f = [].
Proof.
  unfold is_text, check_events.
  destruct (f_size f) as [size|]; [|discriminate].
  destruct (f_data f) as [data|]; [|discriminate].
  destruct (_ <? _)%Z; reflexivity.
Qed.




(** The state of a run that printed the success summary. *)
Lemma run_success_state (self self' : SourceCodeConverter)
  (repo_path output_path : Path) (s : state) :
  loaded self repo_path s = Ok self' ->
  In PrintSuccess
    (new_events s (snd (convert_repository self repo_path output_path s))) ->
  raised (run_effect self' repo_path s) = None
  /\ outfile (snd (convert_repository self repo_path output_path s))
     = Some ([RepoHeader repo_path; RepoRule]
               ++ chunks (run_effect self' repo_path s))
  /\ new_events s (snd (convert_repository self repo_path output_path s))
     = events (run_effect self' repo_path s)
         ++ [PrintSuccess; PrintProcessed (count (run_effect self' repo_path s));
             PrintOutput output_path].
Proof.
  intros L H. destruct (run_success _ _ _ _ _ L H) as (O & Hh & R).
  split; [exact R|]. split.
  - rewrite (run_outfile _ _ _ _ _ L O), Hh. reflexivity.
  - rewrite (run_new_events _ _ _ _ _ L), O, Hh. unfold summary. rewrite R.
    reflexivity.
Qed.

(* ------------------------------------------------------------------ *)
(** ** Loading the patterns *)

Lemma set_add_In (p x : str) (l : list str) :
  In p (set_add x l) <-> p = x \/ In p l.
Proof.
  unfold set_add. destruct (mem x l) eqn:E.
  - apply mem_In in E. split; [auto | intros [->|H]; auto].
  - rewrite in_app_iff. simpl. intuition auto.
Qed.

Lemma add_line_In (p line : str) (pats : list str) :
  In p (add_line pats line)
  <-> In p pats \/ (p = strip line /\ pattern_line line = true).
Proof.
  unfold add_line. fold (pattern_line line).
  destruct (pattern_line line).
  - rewrite set_add_In. intuition auto.
  - intuition auto. discriminate.
Qed.

Lemma fold_add_line_In (p : str) (lines pats : list str) :
  In p (fold_left add_line lines pats)
  <-> In p pats
      \/ exists line, In line lines /\ p = strip line /\ pattern_line line = true.
Proof.
  revert pats. induction lines as [|l lines IH]; intros pats; simpl.
  - split; [auto | intros [H|(l & [] & _)]; exact H].
  - rewrite IH, add_line_In. split.
    + intros [[H|[-> H]]|(l' & Hl & H)]; auto.
      * right. exists l. auto.
      * right. exists l'. auto.
    + intros [H|(l' & [<-|Hl] & E & H)]; auto.
      right. exists l'. auto.
Qed.

Lemma loaded_eq (self : SourceCodeConverter) (repo_path : Path) (s : state) :
  loaded self repo_path s
  = match gitignore (root_of repo_path s) with
    | Some (Ok lines) =>
        Ok (mkConverter (max_file_size self) (exclude_dirs self)
              (fold_left add_line lines (gitignore_patterns self)))
    | Some (Raise e) => Raise e
    | None => Ok self
    end.
Proof.
  unfold loaded, load_gitignore, bind, root_at, lift, ret. fold (root_of repo_path s).
  destruct (gitignore (root_of repo_path s)) as [[lines|e]|]; reflexivity.
Qed.

(** *** The order in which the pattern set is iterated *)










(* ------------------------------------------------------------------ *)
(** ** Events and counters of a run; the temporary directory *)


Lemma run_processed (self self' : SourceCodeConverter) (repo_path output_path : Path)
  (s : state) (n : nat) :
  loaded self repo_path s = Ok self' ->
  In (PrintProcessed n)
    (new_events s (snd (convert_repository self repo_path output_path s))) ->
  In PrintSuccess
    (new_events s (snd (convert_repository self repo_path output_path s)))
  /\ n = count (run_effect self' repo_path s).
Proof.
  intros L. rewrite (run_new_events _ _ _ _ _ L).
  destruct (can_open_w output_path); cbn [andb];
    [destruct (utf8_encodable _)|];
    try (intros [H|[]]; discriminate).
  rewrite !in_app_iff. intros [H|H].
  - exfalso. revert H. apply per_file_not_In; [|reflexivity].
    apply loop_events_per_file.
  - unfold summary in *. destruct (raised (run_effect self' repo_path s)).
    + destruct H as [H|[]]. discriminate.
    + split; [right; left; reflexivity|].
      destruct H as [H|[H|[H|[]]]]; try discriminate. congruence.
Qed.

Lemma lookup_remove_dir (p : Path) (ds : list (Path * rootdir)) :
  lookup_dir p (remove_dir p ds) = None.
Proof.
  induction ds as [|[q d] ds IH]; [reflexivity|].
  unfold remove_dir in *. cbn [filter fst].
  destruct (path_eqb p q) eqn:E; cbn [negb]; [exact IH|].
  cbn [lookup_dir]. rewrite E. exact IH.
Qed.


(* ------------------------------------------------------------------ *)
(** ** The claims of the specification *)


(** C3. Directory pruning. Whatever the ignore patterns are, every
    directory [os.walk] yields is reached from the root through names that
    are not in the exclusion set, and the artifact holds no section header
    whose relative path passes through a directory with an excluded name.
    The exclusion set is the fixed set of seven names and loading the
    patterns leaves it as it is. *)
Theorem C3_excluded_pruned (self : SourceCodeConverter)
  (repo_path output_path : Path) (s : state) :
  (forall es root files,
     In (root, files) (os_walk (keep_dir self) repo_path es) ->
     exists ds, root = extend repo_path ds
                /\ forall d, In d ds -> ~ In d (exclude_dirs self))
  /\ (forall self' cs ds d n,
        loaded self repo_path s = Ok self' ->
        can_open_w output_path = true ->
        outfile (snd (convert_repository self repo_path output_path s)) = Some cs ->
        In d ds -> In d (exclude_dirs self) ->
        ~ In (FileHeader (mkPath [] (ds ++ [n]))) cs)
  /\ (forall self', loaded self repo_path s = Ok self' ->
        exclude_dirs self' = exclude_dirs self)
  /\ (forall max_size,
        exclude_dirs (init max_size)
        = map lit [".git"; "node_modules"; ".venv"; "venv"; "__pycache__";
                   "dist"; "build"]%string).
Proof.
  assert (K : forall ds, forallb (keep_dir self) ds = true ->
                         forall d, In d ds -> ~ In d (exclude_dirs self)).
  { intros ds H d Hd. rewrite forallb_forall in H. specialize (H d Hd).
    unfold keep_dir in H. apply negb_true_iff in H. apply mem_false. exact H. }
  assert (X : forall self', loaded self repo_path s = Ok self' ->
                            exclude_dirs self' = exclude_dirs self).
  { unfold loaded, load_gitignore, bind, root_at, lift, ret. intros self'.
    destruct (gitignore _) as [[lines|e]|]; simpl; intros H;
      try discriminate; injection H as <-; reflexivity. }
  split; [|split; [|split]].
  - intros es root files H.
    destruct (os_walk_roots _ _ _ _ _ H) as (ds & -> & Hk).
    exists ds. split; [reflexivity | exact (K ds Hk)].
  - intros self' cs ds d n L O E Hd Hx Hc.
    destruct (run_chunk_origin _ _ _ _ _ _ _ L O E Hc) as [H|[H|H]];
      try discriminate.
    destruct H as ([ds' [n' f]] & Hin & _ & [Hh|[Hh|Hh]]); try discriminate.
    injection Hh as Hh. apply app_inj_tail in Hh. destruct Hh as [-> _].
    apply rel_files_reachable, reachable_kept in Hin.
    assert (keep_dir self' = keep_dir self) as Ek
      by (unfold keep_dir; rewrite (X self' L); reflexivity).
    rewrite Ek in Hin. exact (K ds' Hin d Hd Hx).
  - exact X.
  - reflexivity.
Qed.


(** C4 (amended). Round trip. For a file that passes the tests and whose
    bytes decode under the detected encoding (the answer of the detector on
    the first 10000 bytes, or utf-8), the content [read_source_file]
    returns and the loop writes is the decoded text with every "\r\n" and
    every lone "\r" replaced by "\n". It is the decoded text itself when
    that text holds no carriage return. *)
Theorem C4_content_written (self : SourceCodeConverter) (repo_path root : Path)
  (name : str) (f : file) (rel : Path) (size : N) (data : bytes) (text : str)
  (n : nat) (o : list chunk) (s : state) :
  outfile s = Some o ->
  f_size f = Some size -> (Z.of_N size <= max_file_size self)%Z ->
  f_data f = Some data -> has_null (firstn 1024 data) = false ->
  is_ignored self (PurePath.joinpath root name) repo_path = Ok false ->
  PurePath.relative_to (PurePath.joinpath root name) repo_path = Ok rel ->
  utf8_encodable (chunk_text (FileHeader rel)) = true ->
  codec_decode (detect_encoding f) data = Ok text ->
  utf8_encodable (chunk_text (FileContent (universal_newlines text))) = true ->
  fst (read_source_file (PurePath.joinpath root name) f s)
  = Ok (universal_newlines text)
  /\ process_file self repo_path root (name, f) n s
     = (Ok (n + 1),
        mkState (console s)
          (Some (o ++ [FileHeader rel; FileRule;
                       FileContent (universal_newlines text)]))
          (dirs s))
  /\ (~ In 13%N text -> universal_newlines text = text).
Proof.
  intros Ho Es Hs Ed Hn I R Hh Dec Hc.
  assert (T : is_text self f = true)
    by (apply is_text_spec; exists size, data; auto).
  assert (S : source_text f = universal_newlines text).
  { unfold source_text, decoded, read_bytes. rewrite Ed, Dec. reflexivity. }
  assert (Ev : read_events (PurePath.joinpath root name) f = []).
  { unfold read_events, decoded, read_bytes. rewrite Ed, Dec. reflexivity. }
  split; [rewrite read_source_file_run, S; reflexivity|]. split.
  - rewrite (process_file_run self repo_path root (name, f) n o s Ho).
    unfold file_effect, outcome, after. cbn [fst snd].
    rewrite T, I, R. unfold section_effect. rewrite Hh, S, Hc, Ev.
    cbn [raised count chunks events].
    rewrite (check_events_text _ _ _ T), !app_nil_r. reflexivity.
  - clear. induction text as [|c t IH]; [reflexivity|].
    intros H. simpl. destruct (N.eqb_spec c 13) as [->|_].
    + exfalso. apply H. left. reflexivity.
    + rewrite IH; [reflexivity|]. intros H'. apply H. right. exact H'.
Qed.



(** C7. Fatal output-file failure. When the output file cannot be opened
    the run logs the conversion error, prints no summary and leaves the
    file at the output path as it was. When the first write fails the file
    is left created and empty. In every run the new console lines are
    per-file messages followed by either the conversion error or the three
    lines of the summary, never both. *)
Theorem C7_output_failure (self self' : SourceCodeConverter)
  (repo_path output_path : Path) (s : state) :
  loaded self repo_path s = Ok self' ->
  (can_open_w output_path = false ->
   convert_repository self repo_path output_path s
   = (Ok tt, mkState (console s ++ [ErrConversion]) (outfile s) (dirs s)))
  /\ (can_open_w output_path = true ->
      utf8_encodable (chunk_text (RepoHeader repo_path)) = false ->
      convert_repository self repo_path output_path s
      = (Ok tt, mkState (console s ++ [ErrConversion]) (Some []) (dirs s)))
  /\ (exists evs,
        forallb per_file evs = true
        /\ (new_events s (snd (convert_repository self repo_path output_path s))
            = evs ++ [ErrConversion]
            \/ exists n,
                 new_events s (snd (convert_repository self repo_path output_path s))
                 = evs ++ [PrintSuccess; PrintProcessed n; PrintOutput output_path]))
  /\ (In ErrConversion
        (new_events s (snd (convert_repository self repo_path output_path s))) ->
      ~ In PrintSuccess
          (new_events s (snd (convert_repository self repo_path output_path s)))
      /\ (forall n, ~ In (PrintProcessed n)
                      (new_events s (snd (convert_repository self repo_path output_path s))))
      /\ ~ In (PrintOutput output_path)
             (new_events s (snd (convert_repository self repo_path output_path s)))).
Proof.
  intros L.
  assert (A : exists evs,
        forallb per_file evs = true
        /\ (new_events s (snd (convert_repository self repo_path output_path s))
            = evs ++ [ErrConversion]
            \/ exists n,
                 new_events s (snd (convert_repository self repo_path output_path s))
                 = evs ++ [PrintSuccess; PrintProcessed n; PrintOutput output_path])).
  { rewrite (run_new_events _ _ _ _ _ L).
    destruct (can_open_w output_path && utf8_encodable _).
    - exists (events (run_effect self' repo_path s)).
      split; [apply loop_events_per_file|]. unfold summary.
      destruct (raised (run_effect self' repo_path s)); [left; reflexivity|].
      right. eexists. reflexivity.
    - exists []. split; [reflexivity | left; reflexivity]. }
  split; [|split; [|split; [exact A|]]].
  - intros O. rewrite convert_run. unfold convert_result. rewrite L, O. reflexivity.
  - intros O H. rewrite convert_run. unfold convert_result. rewrite L, O, H.
    reflexivity.
  - destruct A as (evs & F & [E|(n & E)]); rewrite E; intros H.
    + assert (N : forall ev, per_file ev = false -> ev <> ErrConversion ->
                             ~ In ev (evs ++ [ErrConversion])).
      { intros ev P D. rewrite in_app_iff. intros [I|[I|[]]].
        - revert I. apply per_file_not_In; assumption.
        - congruence. }
      split; [|split]; [|intros n|]; apply N; (reflexivity || discriminate).
    + exfalso. apply in_app_iff in H. destruct H as [H|[H|[H|[H|[]]]]];
        try discriminate.
      revert H. apply per_file_not_In; [exact F | reflexivity].
Qed.


(** C9. Remote acquisition. A locator that contains the host name is
    cloned: when the client fails, the exception is propagated, nothing is
    traversed or written, and the temporary directory is gone; when it
    succeeds, the conversion runs with the temporary directory as its root,
    holding the cloned tree, and its result, console and output file are
    those of the remote run. In both cases the temporary directory does
    not exist afterwards. *)
Theorem C9_remote_acquisition (self : SourceCodeConverter) (repo_url : str)
  (output_path : Path) (s : state) :
  (git_clone repo_url = None ->
   clone_and_convert self repo_url output_path s
   = (Raise CalledProcessError,
      mkState (console s) (outfile s) (remove_dir temp_dir (dirs s))))
  /\ (forall d, git_clone repo_url = Some d ->
        root_of temp_dir (cloned d s) = d
        /\ fst (clone_and_convert self repo_url output_path s)
           = fst (convert_repository self temp_dir output_path (cloned d s))
        /\ console (snd (clone_and_convert self repo_url output_path s))
           = console (snd (convert_repository self temp_dir output_path (cloned d s)))
        /\ outfile (snd (clone_and_convert self repo_url output_path s))
           = outfile (snd (convert_repository self temp_dir output_path (cloned d s))))
  /\ lookup_dir temp_dir (dirs (snd (clone_and_convert self repo_url output_path s)))
     = None
  /\ (forall max_size output verbose,
        contains repo_url (lit "github.com") = true ->
        convert repo_url max_size output verbose s
        = clone_and_convert (init max_size) repo_url
            match output with
            | Some o => o
            | None => PurePath.parse
                        (PurePath.stem (PurePath.parse repo_url) ++ lit "_output.txt")
            end
            (mkState (console s ++ [PrintGithub]) (outfile s) (dirs s))).
Proof.
  split; [|split; [|split]].
  - intros G. unfold clone_and_convert, with_TemporaryDirectory, bind, run_git_clone.
    rewrite G. cbn [console outfile dirs]. unfold remove_dir. cbn [filter fst].
    rewrite path_eqb_refl. reflexivity.
  - intros d G. split; [|split; [|split]].
    + unfold root_of, cloned. cbn [dirs lookup_dir]. rewrite path_eqb_refl.
      reflexivity.
    + unfold clone_and_convert, with_TemporaryDirectory, bind, run_git_clone.
      rewrite G. cbn [console outfile dirs]. fold (cloned d s).
      destruct (convert_repository self temp_dir output_path (cloned d s)).
      reflexivity.
    + unfold clone_and_convert, with_TemporaryDirectory, bind, run_git_clone.
      rewrite G. cbn [console outfile dirs]. fold (cloned d s).
      destruct (convert_repository self temp_dir output_path (cloned d s)).
      reflexivity.
    + unfold clone_and_convert, with_TemporaryDirectory, bind, run_git_clone.
      rewrite G. cbn [console outfile dirs]. fold (cloned d s).
      destruct (convert_repository self temp_dir output_path (cloned d s)).
      reflexivity.
  - unfold clone_and_convert, with_TemporaryDirectory.
    destruct ((run_git_clone repo_url temp_dir;;
               convert_repository self temp_dir output_path) _) as [r s2].
    cbn [snd dirs]. apply lookup_remove_dir.
  - intros max_size output verbose H. unfold convert. rewrite H.
    unfold bind, emit. reflexivity.
Qed.

(** C10. Count and sections agree. When the summary is printed and no
    per-file processing error was logged, the printed number of processed
    files is the number of section headers in the artifact. *)
Theorem C10_count_agrees (self self' : SourceCodeConverter)
  (repo_path output_path : Path) (s : state) (cs : list chunk) (n : nat) :
  loaded self repo_path s = Ok self' ->
  outfile (snd (convert_repository self repo_path output_path s)) = Some cs ->
  In (PrintProcessed n)
    (new_events s (snd (convert_repository self repo_path output_path s))) ->
  existsb is_processing_error
    (new_events s (snd (convert_repository self repo_path output_path s))) = false ->
  n = length (headers cs).
Proof.
  intros L E H N.
  destruct (run_processed _ _ _ _ _ _ L H) as (P & ->).
  destruct (run_success_state _ _ _ _ _ L P) as (_ & E' & Ev).
  rewrite E' in E. injection E as <-.
  rewrite Ev, existsb_app in N. apply orb_false_iff in N. destruct N as [N _].
  cbn [app headers]. unfold run_effect in *. apply loop_count_headers. exact N.
Qed.

(* ------------------------------------------------------------------ *)
(** ** Further properties of the code *)

(** *** Stripping and loading patterns *)

Lemma lstrip_split (s : str) :
  exists sp, s = sp ++ lstrip s /\ forallb isspace sp = true.
Proof.
  induction s as [|c s (sp & E & F)]; [exists []; auto|].
  simpl. destruct (isspace c) eqn:C.
  - exists (c :: sp). simpl. rewrite C, F. split; [f_equal; exact E | reflexivity].
  - exists []. auto.
Qed.

Lemma lstrip_head (s : str) :
  match lstrip s with c :: _ => isspace c = false | [] => True end.
Proof.
  induction s as [|c s IH]; simpl; [exact I|].
  destruct (isspace c) eqn:C; [exact IH | exact C].
Qed.

Lemma lstrip_fix (s : str) :
  match s with c :: _ => isspace c = false | [] => True end -> lstrip s = s.
Proof. destruct s as [|c s]; simpl; [reflexivity | intros ->; reflexivity]. Qed.

Lemma rstrip_split (s : str) :
  exists sp, s = rstrip s ++ sp /\ forallb isspace sp = true.
Proof.
  unfold rstrip. destruct (lstrip_split (rev s)) as (sp & E & F).
  exists (rev sp). split.
  - rewrite <- rev_app_distr, <- E, rev_involutive. reflexivity.
  - rewrite forallb_forall in *. intros x Hx. apply F. apply in_rev. exact Hx.
Qed.

Lemma strip_trimmed (s : str) : trimmed (strip s) = true.
Proof.
  unfold strip. pose proof (lstrip_head s) as H.
  destruct (rstrip_split (lstrip s)) as (sp & E & _).
  unfold trimmed. destruct (rstrip (lstrip s)) as [|c r] eqn:R; [reflexivity|].
  apply andb_true_iff. split.
  - rewrite E in H. simpl in H. rewrite H. reflexivity.
  - unfold rstrip in R. pose proof (lstrip_head (rev (lstrip s))) as L.
    destruct (lstrip (rev (lstrip s))) as [|x t] eqn:X.
    + discriminate.
    + rewrite <- R. simpl. rewrite last_last, L. reflexivity.
Qed.

Lemma rev_head_last (c : N) (r : str) :
  exists t, rev (c :: r) = last (c :: r) c :: t.
Proof.
  destruct (rev (c :: r)) as [|x t] eqn:E.
  - apply (f_equal (@length N)) in E. rewrite length_rev in E. discriminate.
  - exists t. f_equal. rewrite <- (rev_involutive (c :: r)), E. simpl.
    rewrite last_last. reflexivity.
Qed.

Lemma strip_fix (s : str) : trimmed s = true -> strip s = s.
Proof.
  destruct s as [|c r]; [reflexivity|]. unfold trimmed. intros H.
  apply andb_true_iff in H. destruct H as [H1 H2]. apply negb_true_iff in H1, H2.
  unfold strip. rewrite (lstrip_fix (c :: r)) by exact H1.
  unfold rstrip. destruct (rev_head_last c r) as (t & E). rewrite E.
  rewrite lstrip_fix by exact H2. rewrite <- E. apply rev_involutive.
Qed.

Lemma add_line_keeps (p line : str) (pats : list str) :
  In p pats -> In p (add_line pats line).
Proof. intros H. apply add_line_In. left. exact H. Qed.

Lemma fold_add_line_keeps (p : str) (lines pats : list str) :
  In p pats -> In p (fold_left add_line lines pats).
Proof. intros H. apply fold_add_line_In. left. exact H. Qed.

Lemma set_add_NoDup (x : str) (l : list str) : NoDup l -> NoDup (set_add x l).
Proof.
  intros N. unfold set_add. destruct (mem x l) eqn:E; [exact N|].
  apply mem_false in E. apply NoDup_app; [exact N | repeat constructor; auto |].
  intros a Ha [<-|[]]. auto.
Qed.

Lemma fold_add_line_NoDup (lines pats : list str) :
  NoDup pats -> NoDup (fold_left add_line lines pats).
Proof.
  revert pats. induction lines as [|l lines IH]; intros pats N; simpl; [exact N|].
  apply IH. unfold add_line. destruct (_ && _); [apply set_add_NoDup|]; exact N.
Qed.

Lemma fold_add_line_known (lines pats : list str) :
  (forall line, In line lines -> pattern_line line = true -> In (strip line) pats) ->
  fold_left add_line lines pats = pats.
Proof.
  induction lines as [|l lines IH]; intros H; simpl; [reflexivity|].
  assert (E : add_line pats l = pats).
  { unfold add_line. fold (pattern_line l).
    destruct (pattern_line l) eqn:P; [|reflexivity].
    unfold set_add. rewrite (proj2 (mem_In _ _) (H l (or_introl eq_refl) P)).
    reflexivity. }
  rewrite E. apply IH. intros line Hl. apply H. right. exact Hl.
Qed.

(** X1. [load_gitignore] keeps the pattern set a set: it adds no
    duplicate, it keeps what was loaded before, and loading the same ignore
    file a second time changes nothing. *)
Theorem X1_load_gitignore_set (self self' : SourceCodeConverter)
  (repo_path : Path) (s : state) :
  loaded self repo_path s = Ok self' ->
  (NoDup (gitignore_patterns self) -> NoDup (gitignore_patterns self'))
  /\ (forall p, In p (gitignore_patterns self) -> In p (gitignore_patterns self'))
  /\ load_gitignore self' repo_path s = (Ok self', s)
  /\ max_file_size self' = max_file_size self
  /\ exclude_dirs self' = exclude_dirs self.
Proof.
  rewrite loaded_eq. unfold load_gitignore, bind, root_at, lift, ret.
  fold (root_of repo_path s).
  destruct (gitignore (root_of repo_path s)) as [[lines|e]|]; intros H;
    try discriminate; injection H as <-; cbn [gitignore_patterns max_file_size exclude_dirs].
  - split; [apply fold_add_line_NoDup|]. split; [intros p; apply fold_add_line_keeps|].
    split; [|auto]. rewrite fold_add_line_known; [reflexivity|].
    intros line Hl P. apply fold_add_line_In. right. exists line. auto.
  - destruct self. auto.
Qed.

(** X2. Every pattern [load_gitignore] adds is a stripped line: it is not
    empty, does not start with ["#"], and neither begins nor ends with
    whitespace, so stripping it again returns it unchanged. *)
Theorem X2_loaded_patterns_trimmed (self self' : SourceCodeConverter)
  (repo_path : Path) (s : state) (p : str) :
  loaded self repo_path s = Ok self' ->
  In p (gitignore_patterns self') ->
  In p (gitignore_patterns self)
  \/ (is_empty p = false /\ startswith p (lit "#") = false
      /\ trimmed p = true /\ strip p = p).
Proof.
  rewrite loaded_eq.
  destruct (gitignore (root_of repo_path s)) as [[lines|e]|]; intros H;
    try discriminate; injection H as <-; cbn [gitignore_patterns]; [|auto].
  rewrite fold_add_line_In. intros [H|(line & _ & -> & P)]; [left; exact H | right].
  unfold pattern_line in P. apply andb_true_iff in P.
  rewrite !negb_true_iff in P. destruct P as [P1 P2].
  split; [exact P1|]. split; [exact P2|].
  split; [apply strip_trimmed | apply strip_fix, strip_trimmed].
Qed.

(** *** Probing and reading a file *)

Lemma firstn_exact {A} (pre rest : list A) :
  firstn (length pre) (pre ++ rest) = firstn (length pre) pre.
Proof.
  induction pre as [|x pre IH]; simpl; [destruct rest; reflexivity|].
  rewrite IH. reflexivity.
Qed.

(** X3. [is_text_file] never raises and changes nothing but the console.
    It answers True exactly when the size is known and does not exceed the
    ceiling (a file of exactly the ceiling passes) and the content can be
    read and holds no null byte among its first 1024 bytes. It logs one
    warning exactly when the size cannot be read, or the size passes and
    the content cannot be read; a file that is too large is rejected
    without a warning and without being read. Bytes after the first 1024
    do not change the answer. *)
Theorem X3_is_text_file (self : SourceCodeConverter) (file_path : Path)
  (f : file) (s : state) :
  exists b evs,
    is_text_file self file_path f s
    = (Ok b, mkState (console s ++ evs) (outfile s) (dirs s))
    /\ (b = true
        <-> exists size data,
              f_size f = Some size /\ (Z.of_N size <= max_file_size self)%Z
              /\ f_data f = Some data /\ has_null (firstn 1024 data) = false)
    /\ (evs = [WarnChecking file_path]
        <-> f_size f = None
            \/ exists size, f_size f = Some size
                            /\ (Z.of_N size <= max_file_size self)%Z
                            /\ f_data f = None)
    /\ (evs = [] \/ evs = [WarnChecking file_path])
    /\ (forall size pre rest,
          length pre = 1024 ->
          fst (is_text_file self file_path (mkFile size (Some (pre ++ rest))) s)
          = fst (is_text_file self file_path (mkFile size (Some pre)) s)).
Proof.
  exists (is_text self f), (check_events self file_path f).
  split; [apply is_text_file_run|]. split; [apply is_text_spec|].
  split; [|split].
  - unfold check_events. destruct (f_size f) as [size|].
    + destruct (Z.ltb_spec (max_file_size self) (Z.of_N size)).
      * split; [discriminate|]. intros [H'|(sz & E & L & _)]; [discriminate|].
        injection E as <-. lia.
      * destruct (f_data f) as [data|]; split; try discriminate.
        -- intros [H'|(sz & _ & _ & E)]; discriminate.
        -- intros _. right. exists size. auto.
        -- reflexivity.
    + split; [auto | reflexivity].
  - unfold check_events. destruct (f_size f); [|auto].
    destruct (_ <? _)%Z; [auto|]. destruct (f_data f); auto.
  - intros size pre rest L. rewrite !is_text_file_value. f_equal.
    unfold is_text. cbn [f_size f_data]. destruct size as [size|]; [|reflexivity].
    rewrite <- L, firstn_exact. reflexivity.
Qed.

(** [detect_encoding] always names an encoding: it is utf-8 when the file
    cannot be read or the detector has no answer or an empty one, and
    otherwise the detector's answer. Only the first 10000 bytes of the file
    are shown to the detector. *)
Lemma detect_encoding_facts (f : file) :
  detect_encoding f <> []
  /\ (f_data f = None -> detect_encoding f = utf_8)
  /\ (forall data, f_data f = Some data ->
        chardet_detect (firstn 10000 data) = None
        \/ chardet_detect (firstn 10000 data) = Some [] ->
        detect_encoding f = utf_8)
  /\ (forall data enc, f_data f = Some data ->
        chardet_detect (firstn 10000 data) = Some enc -> enc <> [] ->
        detect_encoding f = enc)
  /\ (forall size size' pre rest rest',
        length pre = 10000 ->
        detect_encoding (mkFile size (Some (pre ++ rest)))
        = detect_encoding (mkFile size' (Some (pre ++ rest')))).
Proof.
  unfold detect_encoding, read_bytes. split; [|split; [|split; [|split]]].
  - destruct (f_data f) as [data|]; [|discriminate].
    destruct (chardet_detect (firstn 10000 data)) as [[|c enc]|]; discriminate.
  - intros ->. reflexivity.
  - intros data -> [->| ->]; reflexivity.
  - intros data enc -> -> H. destruct enc; [contradiction | reflexivity].
  - intros size size' pre rest rest' L. cbn [f_data].
    rewrite <- L, !firstn_exact. reflexivity.
Qed.

Lemma universal_newlines_le (n : nat) :
  forall s, length s <= n -> ~ In 13%N (universal_newlines s).
Proof.
  induction n as [|n IH]; intros s L.
  - destruct s; [intros [] | simpl in L; lia].
  - destruct s as [|c t]; [intros []|]. simpl in L. simpl.
    destruct (N.eqb_spec c 13) as [->|Hc].
    + destruct t as [|d t'].
      * intros [H|[]]. discriminate.
      * simpl in L. destruct (N.eqb d 10).
        -- intros [H|H]; [discriminate|]. revert H. apply IH. lia.
        -- intros [H|H]; [discriminate|]. revert H. apply IH. simpl. lia.
    + intros [H|H]; [congruence|]. revert H. apply IH. lia.
Qed.

Lemma universal_newlines_no_cr (s : str) : ~ In 13%N (universal_newlines s).
Proof. apply (universal_newlines_le (length s)). lia. Qed.

Lemma universal_newlines_id (s : str) :
  ~ In 13%N s -> universal_newlines s = s.
Proof.
  induction s as [|c t IH]; [reflexivity|].
  intros H. simpl. destruct (N.eqb_spec c 13) as [->|_].
  - exfalso. apply H. left. reflexivity.
  - rewrite IH; [reflexivity|]. intros H'. apply H. right. exact H'.
Qed.

Lemma source_text_no_cr (f : file) : ~ In 13%N (source_text f).
Proof.
  unfold source_text. destruct (decoded f); [apply universal_newlines_no_cr|].
  intros [].
Qed.

(** X5. No content written to the artifact holds a carriage return:
    [read_source_file] returns text in which every line ending is "\n",
    and translating it again changes nothing. *)
Theorem X5_no_carriage_return (self self' : SourceCodeConverter)
  (repo_path output_path : Path) (s : state) (cs : list chunk) :
  loaded self repo_path s = Ok self' ->
  can_open_w output_path = true ->
  outfile (snd (convert_repository self repo_path output_path s)) = Some cs ->
  (forall content, In (FileContent content) cs -> ~ In 13%N content)
  /\ (forall p f t content,
        fst (read_source_file p f t) = Ok content ->
        ~ In 13%N content /\ universal_newlines content = content).
Proof.
  intros L O E. split.
  - intros content H.
    destruct (run_chunk_origin _ _ _ _ _ _ _ L O E H) as [H'|[H'|H']];
      try discriminate.
    destruct H' as (x & _ & _ & [H'|[H'|H']]); try discriminate.
    injection H' as ->. apply source_text_no_cr.
  - intros p f t content. rewrite read_source_file_run. cbn [fst].
    intros H. injection H as <-.
    split; [|apply universal_newlines_id]; apply source_text_no_cr.
Qed.

(** *** The shape of the artifact *)

Lemma sections_ok_head (cs : list chunk) :
  sections_ok cs = true ->
  match cs with [] => True | FileHeader _ :: _ => True | _ => False end.
Proof. destruct cs as [|[]]; simpl; auto; discriminate. Qed.

Lemma sections_ok_short (p : Path) (b : list chunk) :
  sections_ok b = true -> sections_ok (FileHeader p :: FileRule :: b) = true.
Proof.
  intros H. pose proof (sections_ok_head b H) as Hh.
  destruct b as [|[] b]; try contradiction; simpl in *; exact H.
Qed.

Lemma file_chunks_shape (self : SourceCodeConverter) (repo_path : Path)
  (rf : Path * (str * file)) :
  forallb encodable_chunk (chunks (file_effect self repo_path rf)) = true
  /\ (chunks (file_effect self repo_path rf) = []
      \/ (exists p c, chunks (file_effect self repo_path rf)
                      = [FileHeader p; FileRule; FileContent c])
      \/ (exists p, chunks (file_effect self repo_path rf)
                    = [FileHeader p; FileRule])).
Proof.
  unfold file_effect.
  destruct (is_text self _); [|split; [reflexivity | auto]].
  destruct (is_ignored self _ repo_path) as [[|]|e];
    try (split; [reflexivity | auto]).
  cbn [chunks]. unfold section_effect.
  destruct (PurePath.relative_to _ repo_path) as [rel|e];
    [|split; [reflexivity | auto]].
  destruct (utf8_encodable (chunk_text (FileHeader rel))) eqn:Hh;
    [|split; [reflexivity | auto]].
  destruct (utf8_encodable (chunk_text (FileContent _))) eqn:Hc; cbn [chunks].
  - split; [|right; left; eauto]. unfold encodable_chunk. cbn [forallb].
    rewrite Hh, Hc, rule_encodable. reflexivity.
  - split; [|right; right; eauto]. unfold encodable_chunk. cbn [forallb].
    rewrite Hh, rule_encodable. reflexivity.
Qed.

Lemma loop_chunks_shape (self : SourceCodeConverter) (repo_path : Path)
  (l : list (Path * (str * file))) :
  forallb encodable_chunk (chunks (loop_effect self repo_path l)) = true
  /\ sections_ok (chunks (loop_effect self repo_path l)) = true.
Proof.
  induction l as [|rf l [IH1 IH2]]; [split; reflexivity|].
  rewrite loop_cons. unfold seq_effect.
  destruct (file_chunks_shape self repo_path rf) as [F S].
  destruct (raised (file_effect self repo_path rf)).
  - split; [exact F|].
    destruct S as [->|[(p & c & ->)|(p & ->)]]; reflexivity.
  - cbn [chunks]. split; [rewrite forallb_app, F, IH1; reflexivity|].
    destruct S as [->|[(p & c & ->)|(p & ->)]].
    + exact IH2.
    + exact IH2.
    + apply sections_ok_short. exact IH2.
Qed.

Lemma encodable_flat_map (cs : list chunk) :
  forallb encodable_chunk cs = true -> utf8_encodable (artifact_text cs) = true.
Proof.
  induction cs as [|c cs IH]; [reflexivity|].
  cbn [forallb]. intros H. apply andb_true_iff in H. destruct H as [H1 H2].
  unfold artifact_text, utf8_encodable in *. cbn [flat_map].
  rewrite forallb_app. unfold encodable_chunk, utf8_encodable in H1.
  rewrite H1, (IH H2). reflexivity.
Qed.

(** X6. The output file a run has opened is well formed: it is empty (the
    first write failed) or it starts with the repository header and its
    rule, followed by sections, each a path header and a rule, followed by
    the content unless writing the content failed. Every string written
    is encodable, so the text of the artifact holds no surrogate. *)
Theorem X6_artifact_shape (self self' : SourceCodeConverter)
  (repo_path output_path : Path) (s : state) (cs : list chunk) :
  loaded self repo_path s = Ok self' ->
  can_open_w output_path = true ->
  outfile (snd (convert_repository self repo_path output_path s)) = Some cs ->
  (cs = []
   \/ exists body, cs = RepoHeader repo_path :: RepoRule :: body
                   /\ sections_ok body = true)
  /\ forallb encodable_chunk cs = true
  /\ utf8_encodable (artifact_text cs) = true.
Proof.
  intros L O E. rewrite (run_outfile _ _ _ _ _ L O) in E.
  destruct (utf8_encodable (chunk_text (RepoHeader repo_path))) eqn:Hh;
    injection E as <-.
  - assert (F : forallb encodable_chunk
                  ([RepoHeader repo_path; RepoRule]
                     ++ chunks (run_effect self' repo_path s)) = true).
    { cbn [app forallb]. unfold encodable_chunk at 1 2.
      rewrite Hh, repo_rule_encodable. apply loop_chunks_shape. }
    split; [|split; [exact F | apply encodable_flat_map; exact F]].
    right. eexists. split; [reflexivity | apply loop_chunks_shape].
  - split; [left; reflexivity | split; reflexivity].
Qed.




(** *** Edge cases of a run *)

Lemma any_match_must_raise (rel : Path) (pats : list str) :
  existsb empty_pattern pats = true ->
  (forall p, In p pats -> PurePath_match rel p <> Ok true) ->
  any_match rel pats = Raise ValueError.
Proof.
  induction pats as [|q pats IH]; simpl; [discriminate|].
  intros E H. destruct (empty_pattern q) eqn:Q.
  - rewrite (proj2 (match_raises rel q) Q). reflexivity.
  - destruct (match_total rel q Q) as [[|] M]; rewrite M.
    + exfalso. exact (H q (or_introl eq_refl) M).
    + apply IH; [exact E|]. intros p Hp. apply H. right. exact Hp.
Qed.

Lemma loop_raised (self : SourceCodeConverter) (repo_path : Path)
  (l : list (Path * (str * file))) (rf : Path * (str * file)) (e : exn) :
  In rf l -> raised (file_effect self repo_path rf) = Some e ->
  exists e', raised (loop_effect self repo_path l) = Some e'.
Proof.
  induction l as [|x l IH]; [intros []|].
  intros [->|H] R; rewrite loop_cons; unfold seq_effect.
  - rewrite R. eauto.
  - destruct (raised (file_effect self repo_path x)) eqn:X; [eauto|].
    cbn [raised]. apply IH; assumption.
Qed.

(** X8. An ignore file with a pattern that has no component (such as
    ["."]) disables the conversion: no section is written, and as soon as a
    reached file passes the text test without being matched by a loaded
    pattern, the test raises, the run logs the conversion error and prints
    no summary. *)
Theorem X8_empty_pattern (self self' : SourceCodeConverter)
  (repo_path output_path : Path) (s : state) :
  loaded self repo_path s = Ok self' ->
  can_open_w output_path = true ->
  utf8_encodable (chunk_text (RepoHeader repo_path)) = true ->
  existsb empty_pattern (gitignore_patterns self') = true ->
  outfile (snd (convert_repository self repo_path output_path s))
  = Some [RepoHeader repo_path; RepoRule]
  /\ (forall ds n f size data,
        reachable (keep_dir self') (listing (root_of repo_path s)) ds n f ->
        f_size f = Some size -> (Z.of_N size <= max_file_size self')%Z ->
        f_data f = Some data -> has_null (firstn 1024 data) = false ->
        (forall p, In p (gitignore_patterns self') ->
           PurePath_match (mkPath [] (ds ++ [n])) p <> Ok true) ->
        is_ignored self' (PurePath.joinpath (extend repo_path ds) n) repo_path
        = Raise ValueError
        /\ In ErrConversion
             (new_events s (snd (convert_repository self repo_path output_path s)))
        /\ ~ In PrintSuccess
               (new_events s (snd (convert_repository self repo_path output_path s)))).
Proof.
  intros L O Hh X. split.
  - rewrite (run_outfile _ _ _ _ _ L O), Hh. unfold run_effect.
    rewrite visited_rel, (loop_aborted _ _ _ X). reflexivity.
  - intros ds n f size data R Es Hs Ed Hn M.
    assert (T : is_text self' f = true)
      by (apply is_text_spec; exists size, data; auto).
    assert (A : any_match (rel_path (ds, (n, f))) (gitignore_patterns self')
                = Raise ValueError)
      by (apply any_match_must_raise; assumption).
    pose proof (is_ignored_visited self' repo_path (ds, (n, f))) as I.
    cbn [below fst snd] in I. rewrite A in I. split; [exact I|].
    assert (Z : exists e, raised (run_effect self' repo_path s) = Some e).
    { unfold run_effect. rewrite visited_rel.
      apply (loop_raised _ _ _ (below repo_path (ds, (n, f))) ValueError).
      - apply in_map. apply reachable_rel_files. exact R.
      - unfold file_effect. cbn [below fst snd]. rewrite T, I. reflexivity. }
    destruct Z as (e & Z).
    rewrite (run_new_events _ _ _ _ _ L), O, Hh. cbn [andb].
    unfold summary. rewrite Z. split.
    + apply in_or_app. right. left. reflexivity.
    + rewrite in_app_iff. intros [H|[H|[]]]; [|discriminate].
      revert H. apply per_file_not_In; [apply loop_events_per_file | reflexivity].
Qed.

(** X9. A root that names no directory is not an error: nothing is walked,
    no ignore file is loaded, the artifact holds the repository header
    only, and the run reports success with zero processed files. *)
Theorem X9_missing_root (self : SourceCodeConverter)
  (repo_path output_path : Path) (s : state) :
  lookup_dir repo_path (dirs s) = None ->
  can_open_w output_path = true ->
  utf8_encodable (chunk_text (RepoHeader repo_path)) = true ->
  convert_repository self repo_path output_path s
  = (Ok tt,
     mkState
       (console s ++ [PrintSuccess; PrintProcessed 0; PrintOutput output_path])
       (Some [RepoHeader repo_path; RepoRule])
       (dirs s)).
Proof.
  intros D O Hh. rewrite convert_run. unfold convert_result.
  rewrite loaded_eq. unfold run_effect, visited, root_of. rewrite D.
  cbn [gitignore empty_root listing]. rewrite O, Hh. reflexivity.
Qed.

Lemma remove_dir_twice (p : Path) (ds : list (Path * rootdir)) :
  remove_dir p (remove_dir p ds) = remove_dir p ds.
Proof.
  unfold remove_dir. induction ds as [|[q d] ds IH]; [reflexivity|].
  cbn [filter fst]. destruct (path_eqb p q) eqn:E; cbn [negb]; [exact IH|].
  cbn [filter fst]. rewrite E. cbn [negb]. rewrite IH. reflexivity.
Qed.

(** X10. An ignore file that cannot be opened or decoded is fatal before
    anything else happens: the exception leaves [convert_repository], the
    output file is not opened and nothing is logged or printed. For a
    cloned repository the exception also leaves [clone_and_convert], after
    the temporary directory has been removed. *)
Theorem X10_unreadable_gitignore (self : SourceCodeConverter)
  (repo_path output_path : Path) (s : state) (e : exn) :
  (gitignore (root_of repo_path s) = Some (Raise e) ->
   convert_repository self repo_path output_path s = (Raise e, s))
  /\ (forall repo_url d,
        git_clone repo_url = Some d -> gitignore d = Some (Raise e) ->
        clone_and_convert self repo_url output_path s
        = (Raise e,
           mkState (console s) (outfile s) (remove_dir temp_dir (dirs s)))).
Proof.
  assert (A : forall p t, gitignore (root_of p t) = Some (Raise e) ->
                convert_repository self p output_path t = (Raise e, t)).
  { intros p t G. rewrite convert_run. unfold convert_result.
    rewrite loaded_eq, G. reflexivity. }
  split; [apply A|]. intros repo_url d G Gd.
  unfold clone_and_convert, with_TemporaryDirectory, bind, run_git_clone.
  rewrite G. cbn [console outfile dirs]. fold (cloned d s).
  rewrite A.
  - unfold cloned. cbn [console outfile dirs]. unfold remove_dir at 1 2.
    cbn [filter fst]. rewrite path_eqb_refl. cbn [negb].
    fold (remove_dir temp_dir (dirs s)).
    fold (remove_dir temp_dir (remove_dir temp_dir (dirs s))).
    rewrite remove_dir_twice. reflexivity.
  - unfold root_of, cloned. cbn [dirs lookup_dir]. rewrite path_eqb_refl.
    exact Gd.
Qed.


(** *** Patterns and paths *)

Lemma parse_anchored (p : str) :
  startswith p (lit "/") = true -> is_empty (anchor (PurePath.parse p)) = false.
Proof.
  destruct p as [|c t]; [discriminate|].
  change (startswith (c :: t) (lit "/")) with (N.eqb 47 c && startswith t []).
  intros H. apply andb_true_iff in H. destruct H as [H _].
  apply N.eqb_eq in H. subst c.
  unfold PurePath.parse, PurePath.splitroot.
  change (N.eqb 47 PurePath.slash) with true. cbv iota.
  destruct (Nat.eqb _ 2); reflexivity.
Qed.

Lemma match_anchored (rel : Path) (p : str) :
  anchor rel = [] -> startswith p (lit "/") = true ->
  PurePath_match rel p = Ok false.
Proof.
  intros A H. apply parse_anchored in H. unfold PurePath_match.
  unfold PurePath.cparts at 1. rewrite H. cbn [length Nat.eqb negb andb].
  rewrite A. destruct (anchor (PurePath.parse p)); [discriminate | reflexivity].
Qed.

(** X12. A line of the ignore file that starts with ["/"] is dead: a
    pattern with a root never matches the relative path of a file, so
    [is_ignored] answers as if such lines were not loaded. *)
Theorem X12_anchored_patterns_dead (self : SourceCodeConverter)
  (file_path repo_path rel : Path) :
  PurePath.relative_to file_path repo_path = Ok rel ->
  (forall p, startswith p (lit "/") = true -> PurePath_match rel p = Ok false)
  /\ is_ignored self file_path repo_path
     = any_match rel
         (filter (fun p => negb (startswith p (lit "/"))) (gitignore_patterns self))
  /\ ((forall p, In p (gitignore_patterns self) -> startswith p (lit "/") = true) ->
      is_ignored self file_path repo_path = Ok false).
Proof.
  intros R.
  assert (A : anchor rel = []).
  { unfold PurePath.relative_to in R. destruct (PyStr.eqb _ _); [|discriminate].
    destruct (PurePath.strip_prefix _ _); [|discriminate]. injection R as <-.
    reflexivity. }
  assert (D : forall p, startswith p (lit "/") = true -> PurePath_match rel p = Ok false)
    by (intros p; apply match_anchored; exact A).
  assert (F : forall pats, any_match rel pats
                = any_match rel (filter (fun p => negb (startswith p (lit "/"))) pats)).
  { induction pats as [|q pats IH]; [reflexivity|]. cbn [filter any_match].
    destruct (startswith q (lit "/")) eqn:Q; cbn [negb].
    - rewrite (D q Q). exact IH.
    - cbn [any_match]. rewrite IH. reflexivity. }
  split; [exact D|]. unfold is_ignored. rewrite R. split; [apply F|].
  intros H. apply any_match_false. intros p Hp. apply D, H, Hp.
Qed.

Lemma split_no_sep (sep : N) (s : str) :
  existsb (N.eqb sep) s = false -> split sep s = [s].
Proof.
  induction s as [|c t IH]; [reflexivity|]. cbn [existsb split]. intros H.
  apply orb_false_iff in H. destruct H as [H1 H2].
  rewrite N.eqb_sym, H1, (IH H2). reflexivity.
Qed.

Lemma split_app_sep (sep : N) (s u : str) :
  existsb (N.eqb sep) s = false ->
  split sep (s ++ sep :: u) = s :: split sep u.
Proof.
  induction s as [|c t IH]; cbn [existsb app split]; intros H.
  - rewrite N.eqb_refl. reflexivity.
  - apply orb_false_iff in H. destruct H as [H1 H2].
    rewrite N.eqb_sym, H1, (IH H2). reflexivity.
Qed.

Lemma valid_name_parts (x : str) :
  valid_name x = true ->
  PurePath.keep_part x = true /\ existsb (N.eqb PurePath.slash) x = false
  /\ exists c t, x = c :: t /\ N.eqb c PurePath.slash = false.
Proof.
  unfold valid_name. intros H. apply andb_true_iff in H. destruct H as [K S].
  apply negb_true_iff in S. split; [exact K|]. split; [exact S|].
  destruct x as [|c t]; [discriminate|]. exists c, t. split; [reflexivity|].
  cbn [existsb] in S. apply orb_false_iff in S. rewrite N.eqb_sym. tauto.
Qed.

Lemma parse_name (x : str) :
  valid_name x = true -> PurePath.parse x = mkPath [] [x].
Proof.
  intros V. destruct (valid_name_parts x V) as (K & S & c & t & -> & C).
  unfold PurePath.parse, PurePath.splitroot. rewrite C.
  rewrite (split_no_sep _ _ S). cbn [filter]. rewrite K. reflexivity.
Qed.

Lemma parse_name_slash (x : str) :
  valid_name x = true -> PurePath.parse (x ++ lit "/") = mkPath [] [x].
Proof.
  intros V. destruct (valid_name_parts x V) as (K & S & c & t & E & C).
  unfold PurePath.parse, PurePath.splitroot. rewrite E at 1. cbn [app]. rewrite C.
  change (lit "/") with (PurePath.slash :: []).
  rewrite (split_app_sep _ _ _ S). cbn [split filter]. rewrite K. reflexivity.
Qed.

Lemma match_single (ds : list str) (n pattern q : str) :
  PurePath.parse pattern = mkPath [] [q] ->
  PurePath_match (mkPath [] (ds ++ [n])) pattern = Ok (fnmatchcase n q).
Proof.
  intros P. unfold PurePath_match. rewrite P. unfold PurePath.cparts.
  cbn [anchor parts is_empty length Nat.eqb negb andb].
  rewrite length_app. cbn [length].
  replace (length ds + 1 <? 1) with false
    by (symmetry; apply Nat.ltb_ge; lia).
  rewrite rev_app_distr. cbn [rev app match_parts].
  destruct (rev ds); rewrite andb_true_r; reflexivity.
Qed.

(** X13. A pattern that is a single name (no separator), with or without
    a trailing ["/"], is tested against the file name only: the names of
    the directories above the file play no part, so a line such as
    ["docs"] or ["docs/"] ignores the files called [docs] at any depth and
    not the files below a directory of that name. *)
Theorem X13_name_patterns (self : SourceCodeConverter) (repo_path : Path)
  (ds : list str) (n p : str) :
  valid_name p = true ->
  PurePath_match (mkPath [] (ds ++ [n])) p = Ok (fnmatchcase n p)
  /\ PurePath_match (mkPath [] (ds ++ [n])) (p ++ lit "/") = Ok (fnmatchcase n p)
  /\ (gitignore_patterns self = [p] ->
      is_ignored self (PurePath.joinpath (extend repo_path ds) n) repo_path
      = Ok (fnmatchcase n p)).
Proof.
  intros V. split; [apply match_single, parse_name, V|].
  split; [apply match_single, parse_name_slash, V|].
  intros G. pose proof (is_ignored_visited self repo_path (ds, (n, mkFile None None))) as I.
  cbn [below fst snd] in I. rewrite I, G. cbn [any_match].
  change (rel_path (ds, (n, mkFile None None))) with (mkPath [] (ds ++ [n])).
  rewrite (match_single ds n p p (parse_name p V)).
  destruct (fnmatchcase n p); reflexivity.
Qed.

Lemma split_join (ps : list str) :
  ps <> [] -> forallb (fun x => negb (existsb (N.eqb PurePath.slash) x)) ps = true ->
  split PurePath.slash (join (lit "/") ps) = ps.
Proof.
  induction ps as [|x r IH]; [congruence|]. intros _ H.
  cbn [forallb] in H. apply andb_true_iff in H. destruct H as [Hx Hr].
  apply negb_true_iff in Hx. destruct r as [|y r].
  - apply split_no_sep. exact Hx.
  - change (join (lit "/") (x :: y :: r))
      with (x ++ PurePath.slash :: join (lit "/") (y :: r)).
    rewrite (split_app_sep _ _ _ Hx), IH; [reflexivity | discriminate | exact Hr].
Qed.

Lemma parse_to_str (ps : list str) :
  forallb valid_name ps = true ->
  PurePath.parse (PurePath.to_str (mkPath [] ps)) = mkPath [] ps.
Proof.
  intros V. destruct ps as [|x r]; [reflexivity|].
  assert (S : forallb (fun x => negb (existsb (N.eqb PurePath.slash) x)) (x :: r) = true).
  { rewrite forallb_forall in *. intros y Hy. specialize (V y Hy).
    unfold valid_name in V. apply andb_true_iff in V. tauto. }
  assert (K : filter PurePath.keep_part (x :: r) = x :: r).
  { clear S. induction (x :: r) as [|y l IH]; [reflexivity|].
    cbn [forallb] in V. apply andb_true_iff in V. destruct V as [Vy Vl].
    unfold valid_name in Vy. apply andb_true_iff in Vy. destruct Vy as [Ky _].
    cbn [filter]. rewrite Ky, (IH Vl). reflexivity. }
  unfold PurePath.to_str. cbn [anchor parts app].
  cbn [forallb] in V. apply andb_true_iff in V. destruct V as [Vx _].
  destruct (valid_name_parts x Vx) as (_ & _ & c & t & E & C).
  unfold PurePath.parse, PurePath.splitroot.
  assert (H : exists u, join (lit "/") (x :: r) = c :: u).
  { rewrite E. destruct r; cbn [join app]; eauto. }
  destruct H as (u & H). rewrite H at 1. rewrite C.
  rewrite split_join by (discriminate || exact S). rewrite K. reflexivity.
Qed.

(** X14. A section header identifies its file. For relative paths made of
    directory-entry names (no name is empty, ["."] or holds a separator),
    parsing the printed path gives the path back, so two files with the
    same header line have the same relative path. *)
Theorem X14_header_identifies_file (p q : Path) :
  anchor p = [] -> forallb valid_name (parts p) = true ->
  anchor q = [] -> forallb valid_name (parts q) = true ->
  PurePath.parse (PurePath.to_str p) = p
  /\ (chunk_text (FileHeader p) = chunk_text (FileHeader q) -> p = q).
Proof.
  destruct p as [a ps], q as [b qs]. cbn [anchor parts].
  intros -> Vp -> Vq. split; [apply parse_to_str; exact Vp|].
  cbn [chunk_text]. intros H. apply app_inv_head in H.
  apply app_inv_tail in H.
  rewrite <- (parse_to_str ps Vp), <- (parse_to_str qs Vq), H. reflexivity.
Qed.

Lemma split_components (sep : N) (s : str) :
  forall x, In x (split sep s) -> existsb (N.eqb sep) x = false.
Proof.
  induction s as [|c t IH]; cbn [split].
  - intros x [<-|[]]. reflexivity.
  - destruct (N.eqb_spec c sep) as [->|Hc].
    + intros x [<-|H]; [reflexivity | apply IH; exact H].
    + destruct (split sep t) as [|h r] eqn:E.
      * intros x [<-|[]]. cbn [existsb]. rewrite (proj2 (N.eqb_neq sep c)) by congruence.
        reflexivity.
      * intros x [<-|H].
        -- cbn [existsb]. rewrite (proj2 (N.eqb_neq sep c)) by congruence.
           apply IH. left. reflexivity.
        -- apply IH. right. exact H.
Qed.

Lemma last_cases {A} (l : list A) (d : A) : l = [] \/ In (last l d) l.
Proof.
  induction l as [|x l IH]; [left; reflexivity|]. right.
  destruct l as [|y l]; [left; reflexivity|].
  destruct IH as [E|H]; [discriminate|]. right. exact H.
Qed.

Lemma existsb_firstn {A} (g : A -> bool) (i : nat) (l : list A) :
  existsb g l = false -> existsb g (firstn i l) = false.
Proof.
  revert i. induction l as [|x l IH]; intros [|i]; cbn [firstn existsb]; auto.
  intros H. apply orb_false_iff in H. destruct H as [H1 H2].
  rewrite H1, (IH i H2). reflexivity.
Qed.

Lemma name_no_sep (s : str) :
  existsb (N.eqb PurePath.slash) (PurePath.name (PurePath.parse s)) = false.
Proof.
  unfold PurePath.name, PurePath.parse.
  destruct (PurePath.splitroot s) as [r rel]. cbn [parts].
  destruct (last_cases (filter PurePath.keep_part (split PurePath.slash rel)) [])
    as [->|H]; [reflexivity|].
  apply filter_In in H. destruct H as [H _].
  exact (split_components _ _ _ H).
Qed.

Lemma stem_no_sep (s : str) :
  existsb (N.eqb PurePath.slash) (PurePath.stem (PurePath.parse s)) = false.
Proof.
  unfold PurePath.stem. pose proof (name_no_sep s) as H.
  destruct (rfind 46 _) as [i|]; [|exact H].
  destruct (_ && _); [apply existsb_firstn|]; exact H.
Qed.

Lemma output_name_valid (st : str) :
  existsb (N.eqb PurePath.slash) st = false ->
  valid_name (st ++ lit "_output.txt") = true.
Proof.
  intros H. unfold valid_name, PurePath.keep_part.
  rewrite existsb_app, H.
  assert (S : existsb (N.eqb PurePath.slash) (lit "_output.txt") = false)
    by reflexivity.
  rewrite S. destruct st as [|c r]; [reflexivity|].
  assert (E : PyStr.eqb (r ++ lit "_output.txt") [] = false)
    by (destruct r; reflexivity).
  change (PyStr.eqb ((c :: r) ++ lit "_output.txt") (lit "."))
    with (N.eqb c 46 && PyStr.eqb (r ++ lit "_output.txt") []).
  rewrite E, andb_false_r. reflexivity.
Qed.

(** X15. Without [--output] the artifact is written to a single file name
    in the current directory: the stem of the locator's last component
    followed by ["_output.txt"], whatever the locator is (for ["."] and
    ["/"] the stem is empty). A local locator is converted in place, with
    that output or the one given. *)
Theorem X15_default_output (repo_path : str) (max_size : Z) (verbose : bool)
  (s : state) :
  valid_name (PurePath.stem (PurePath.parse repo_path) ++ lit "_output.txt") = true
  /\ PurePath.parse (PurePath.stem (PurePath.parse repo_path) ++ lit "_output.txt")
     = mkPath [] [PurePath.stem (PurePath.parse repo_path) ++ lit "_output.txt"]
  /\ (contains repo_path (lit "github.com") = false ->
      convert repo_path max_size None verbose s
      = convert_repository (init max_size) (PurePath.parse repo_path)
          (mkPath [] [PurePath.stem (PurePath.parse repo_path) ++ lit "_output.txt"])
          s)
  /\ (forall o, contains repo_path (lit "github.com") = false ->
        convert repo_path max_size (Some o) verbose s
        = convert_repository (init max_size) (PurePath.parse repo_path) o s).
Proof.
  pose proof (output_name_valid _ (stem_no_sep repo_path)) as V.
  split; [exact V|]. split; [apply parse_name; exact V|]. split.
  - intros H. unfold convert. rewrite H, (parse_name _ V). reflexivity.
  - intros o H. unfold convert. rewrite H. reflexivity.
Qed.





(** *** Order, truncation and the remote header *)



(** X18. Opening the output file discards what it held: whenever the file
    can be opened, what a run leaves in it does not depend on its earlier
    content (nor on the console), also when the run then fails; when it
    cannot be opened the earlier content stays. *)
Theorem X18_output_truncated (self self' : SourceCodeConverter)
  (repo_path output_path : Path) (s : state)
  (c : list event) (o : option (list chunk)) :
  loaded self repo_path s = Ok self' ->
  (can_open_w output_path = true ->
   outfile (snd (convert_repository self repo_path output_path
                   (mkState c o (dirs s))))
   = outfile (snd (convert_repository self repo_path output_path s)))
  /\ (can_open_w output_path = false ->
      outfile (snd (convert_repository self repo_path output_path s)) = outfile s).
Proof.
  intros L. rewrite !convert_run. unfold convert_result.
  assert (Ld : loaded self repo_path (mkState c o (dirs s)) = loaded self repo_path s)
    by (rewrite !loaded_eq; reflexivity).
  rewrite Ld, L. split; intros O; rewrite O; [|reflexivity].
  destruct (utf8_encodable _); reflexivity.
Qed.

(** X19. The artifact of a cloned repository names the temporary
    directory, not the locator: when the clone succeeds and the output is
    opened and its first write succeeds, the artifact starts with the
    header of the temporary directory. *)
Theorem X19_remote_header (self self' : SourceCodeConverter) (repo_url : str)
  (output_path : Path) (s : state) (d : rootdir) :
  git_clone repo_url = Some d ->
  loaded self temp_dir (cloned d s) = Ok self' ->
  can_open_w output_path = true ->
  utf8_encodable (chunk_text (RepoHeader temp_dir)) = true ->
  exists body,
    outfile (snd (clone_and_convert self repo_url output_path s))
    = Some (RepoHeader temp_dir :: RepoRule :: body)
    /\ sections_ok body = true
    /\ forall rel, In rel (headers body) ->
         exists ds n f, reachable (keep_dir self') (listing d) ds n f
                        /\ rel = mkPath [] (ds ++ [n]).
Proof.
  intros G L O Hh.
  assert (E : outfile (snd (clone_and_convert self repo_url output_path s))
              = outfile (snd (convert_repository self temp_dir output_path
                                (cloned d s)))).
  { unfold clone_and_convert, with_TemporaryDirectory, bind, run_git_clone.
    rewrite G. cbn [console outfile dirs]. fold (cloned d s).
    destruct (convert_repository self temp_dir output_path (cloned d s)).
    reflexivity. }
  assert (Rd : root_of temp_dir (cloned d s) = d).
  { unfold root_of, cloned. cbn [dirs lookup_dir]. rewrite path_eqb_refl.
    reflexivity. }
  exists (chunks (run_effect self' temp_dir (cloned d s))).
  rewrite E. pose proof (run_outfile _ _ _ output_path _ L O) as Ro.
  rewrite Hh in Ro. split; [exact Ro|].
  split; [apply loop_chunks_shape|].
  intros rel H. apply In_headers in H.
  assert (Hc : In (FileHeader rel)
                 ([RepoHeader temp_dir; RepoRule]
                    ++ chunks (run_effect self' temp_dir (cloned d s))))
    by (right; right; exact H).
  destruct (run_chunk_origin _ _ _ _ _ _ _ L O Ro Hc) as [H'|[H'|H']];
    try discriminate.
  destruct H' as ([ds [n f]] & Hx & _ & [H'|[H'|H']]); try discriminate.
  injection H' as ->. rewrite Rd in Hx. exists ds, n, f.
  split; [apply rel_files_reachable; exact Hx | reflexivity].
Qed.

End Converter.

(* ------------------------------------------------------------------ *)
(** ** The theorems at concrete runs *)

Import Sample.




(** The text of [a.txt] in scenario A is written as it is. *)
Lemma C4_witness :
  outfile (mkState [] (Some [RepoHeader here; RepoRule]) []) = Some [RepoHeader here; RepoRule]
  /\ f_size (text_file "hello") = Some 5%N
  /\ (Z.of_N 5 <= max_file_size (init 100))%Z
  /\ f_data (text_file "hello") = Some (data "hello")
  /\ has_null (firstn 1024 (data "hello")) = false
  /\ is_ignored fnmatch (init 100) (PurePath.joinpath here (lit "a.txt")) here = Ok false
  /\ PurePath.relative_to (PurePath.joinpath here (lit "a.txt")) here = Ok a_txt
  /\ utf8_encodable (chunk_text (FileHeader a_txt)) = true
  /\ decode (detect_encoding detect (text_file "hello")) (data "hello") = Ok (lit "hello")
  /\ utf8_encodable (chunk_text (FileContent (universal_newlines (lit "hello")))) = true
  /\ process_file detect decode fnmatch (init 100) here here
       (lit "a.txt", text_file "hello") 0
       (mkState [] (Some [RepoHeader here; RepoRule]) [])
     = (Ok (0 + 1),
        mkState []
          (Some ([RepoHeader here; RepoRule]
                   ++ [FileHeader a_txt; FileRule;
                       FileContent (universal_newlines (lit "hello"))]))
          []).
Proof.
  assert (S : (Z.of_N 5 <= max_file_size (init 100))%Z)
    by (vm_compute; discriminate).
  split; [reflexivity|]. split; [reflexivity|]. split; [exact S|].
  repeat (split; [reflexivity|]).
  exact (proj1 (proj2 (C4_content_written detect decode fnmatch (init 100) here here
                         (lit "a.txt") (text_file "hello") a_txt 5%N (data "hello")
                         (lit "hello") 0 [RepoHeader here; RepoRule]
                         (mkState [] (Some [RepoHeader here; RepoRule]) [])
                         eq_refl eq_refl S eq_refl eq_refl eq_refl eq_refl
                         eq_refl eq_refl eq_refl))).
Defined.

(** The bytes of "a\r\nb" decode to that text, and the artifact holds
    "a\nb". *)
Lemma C4_counterexample :
  f_data crlf_file = Some crlf_bytes
  /\ decode (detect_encoding detect crlf_file) crlf_bytes
     = Ok [97; 13; 10; 98]%N
  /\ outfile (snd (convert_repository detect decode fnmatch always
                     (init 100) here out_txt (world crlf_listing None)))
     = Some [RepoHeader here; RepoRule; FileHeader a_txt; FileRule;
             FileContent [97; 10; 98]%N].
Proof. repeat split; vm_compute; reflexivity. Qed.



(** Scenario A with an output path that cannot be opened. *)
Lemma C7_witness :
  loaded (init 100) here (world scenario_a None) = Ok (init 100)
  /\ convert_repository detect decode fnmatch never
       (init 100) here out_txt (world scenario_a None)
     = (Ok tt,
        mkState (console (world scenario_a None) ++ [ErrConversion])
          (outfile (world scenario_a None)) (dirs (world scenario_a None))).
Proof.
  split; [reflexivity|].
  exact (proj1 (C7_output_failure detect decode fnmatch never
                  (init 100) (init 100) here out_txt (world scenario_a None)
                  eq_refl)
           eq_refl).
Defined.


(** Scenario A: one file is reported and the artifact has one header. *)
Lemma C10_witness :
  loaded (init 100) here (world scenario_a None) = Ok (init 100)
  /\ outfile (snd (convert_repository detect decode fnmatch always
                     (init 100) here out_txt (world scenario_a None)))
     = Some artifact_a
  /\ In (PrintProcessed 1)
       (new_events (world scenario_a None)
          (snd (convert_repository detect decode fnmatch always
                  (init 100) here out_txt (world scenario_a None))))
  /\ existsb is_processing_error
       (new_events (world scenario_a None)
          (snd (convert_repository detect decode fnmatch always
                  (init 100) here out_txt (world scenario_a None))))
     = false
  /\ 1 = length (headers artifact_a).
Proof.
  assert (L : loaded (init 100) here (world scenario_a None) = Ok (init 100))
    by reflexivity.
  assert (E : outfile (snd (convert_repository detect decode fnmatch always
                              (init 100) here out_txt (world scenario_a None)))
              = Some artifact_a) by (vm_compute; reflexivity).
  assert (P : In (PrintProcessed 1)
                (new_events (world scenario_a None)
                   (snd (convert_repository detect decode fnmatch always
                           (init 100) here out_txt (world scenario_a None)))))
    by (vm_compute; right; left; reflexivity).
  assert (N : existsb is_processing_error
                (new_events (world scenario_a None)
                   (snd (convert_repository detect decode fnmatch always
                           (init 100) here out_txt (world scenario_a None))))
              = false) by (vm_compute; reflexivity).
  split; [exact L|]. split; [exact E|]. split; [exact P|]. split; [exact N|].
  exact (C10_count_agrees detect decode fnmatch always (init 100) (init 100)
           here out_txt (world scenario_a None) artifact_a 1 L E P N).
Defined.

(* ------------------------------------------------------------------ *)
(** ** The further properties at concrete runs *)

(** Loading the sample ignore file gives the single pattern ["*.log"]. *)
Lemma X1_witness :
  loaded (init 100) here (world scenario_a (Some (Ok ignore_lines)))
  = Ok (with_patterns ["*.log"]%string)
  /\ load_gitignore (with_patterns ["*.log"]%string) here
       (world scenario_a (Some (Ok ignore_lines)))
     = (Ok (with_patterns ["*.log"]%string),
        world scenario_a (Some (Ok ignore_lines))).
Proof.
  assert (L : loaded (init 100) here (world scenario_a (Some (Ok ignore_lines)))
              = Ok (with_patterns ["*.log"]%string)) by reflexivity.
  split; [exact L|].
  exact (proj1 (proj2 (proj2 (X1_load_gitignore_set (init 100)
                                (with_patterns ["*.log"]%string) here
                                (world scenario_a (Some (Ok ignore_lines))) L)))).
Defined.

Lemma X2_witness :
  loaded (init 100) here (world scenario_a (Some (Ok ignore_lines)))
  = Ok (with_patterns ["*.log"]%string)
  /\ In (lit "*.log") (gitignore_patterns (with_patterns ["*.log"]%string))
  /\ (In (lit "*.log") (gitignore_patterns (init 100))
      \/ (is_empty (lit "*.log") = false
          /\ startswith (lit "*.log") (lit "#") = false
          /\ trimmed (lit "*.log") = true /\ strip (lit "*.log") = lit "*.log")).
Proof.
  assert (L : loaded (init 100) here (world scenario_a (Some (Ok ignore_lines)))
              = Ok (with_patterns ["*.log"]%string)) by reflexivity.
  assert (I : In (lit "*.log") (gitignore_patterns (with_patterns ["*.log"]%string)))
    by (left; reflexivity).
  split; [exact L|]. split; [exact I|].
  exact (X2_loaded_patterns_trimmed (init 100) (with_patterns ["*.log"]%string)
           here (world scenario_a (Some (Ok ignore_lines))) (lit "*.log") L I).
Defined.

(** The file with a Windows line ending is written without the carriage
    return. *)
Lemma X5_witness :
  loaded (init 100) here (world crlf_listing None) = Ok (init 100)
  /\ always out_txt = true
  /\ outfile (snd (convert_repository detect decode fnmatch always
                     (init 100) here out_txt (world crlf_listing None)))
     = Some [RepoHeader here; RepoRule; FileHeader a_txt; FileRule;
             FileContent [97; 10; 98]%N]
  /\ ~ In 13%N [97; 10; 98]%N.
Proof.
  assert (L : loaded (init 100) here (world crlf_listing None) = Ok (init 100))
    by reflexivity.
  assert (E : outfile (snd (convert_repository detect decode fnmatch always
                              (init 100) here out_txt (world crlf_listing None)))
              = Some [RepoHeader here; RepoRule; FileHeader a_txt; FileRule;
                      FileContent [97; 10; 98]%N]) by (vm_compute; reflexivity).
  split; [exact L|]. split; [reflexivity|]. split; [exact E|].
  apply (proj1 (X5_no_carriage_return detect decode fnmatch always
                  (init 100) (init 100) here out_txt (world crlf_listing None)
                  _ L eq_refl E)).
  right. right. right. right. left. reflexivity.
Defined.

Lemma X6_witness :
  loaded (init 100) here (world scenario_a None) = Ok (init 100)
  /\ always out_txt = true
  /\ outfile (snd (convert_repository detect decode fnmatch always
                     (init 100) here out_txt (world scenario_a None)))
     = Some artifact_a
  /\ utf8_encodable (artifact_text artifact_a) = true.
Proof.
  assert (L : loaded (init 100) here (world scenario_a None) = Ok (init 100))
    by reflexivity.
  assert (E : outfile (snd (convert_repository detect decode fnmatch always
                              (init 100) here out_txt (world scenario_a None)))
              = Some artifact_a) by (vm_compute; reflexivity).
  split; [exact L|]. split; [reflexivity|]. split; [exact E|].
  exact (proj2 (proj2 (X6_artifact_shape detect decode fnmatch always
                         (init 100) (init 100) here out_txt
                         (world scenario_a None) artifact_a L eq_refl E))).
Defined.


(** Scenario A with the ignore file ["."]: the run is aborted at [a.txt]. *)
Lemma X8_witness :
  loaded (init 100) here (world scenario_a (Some (Ok dot_lines)))
  = Ok (with_patterns ["."]%string)
  /\ existsb (empty_pattern) (gitignore_patterns (with_patterns ["."]%string)) = true
  /\ outfile (snd (convert_repository detect decode fnmatch always
                     (init 100) here out_txt
                     (world scenario_a (Some (Ok dot_lines)))))
     = Some [RepoHeader here; RepoRule]
  /\ In ErrConversion
       (new_events (world scenario_a (Some (Ok dot_lines)))
          (snd (convert_repository detect decode fnmatch always
                  (init 100) here out_txt
                  (world scenario_a (Some (Ok dot_lines)))))).
Proof.
  assert (L : loaded (init 100) here (world scenario_a (Some (Ok dot_lines)))
              = Ok (with_patterns ["."]%string)) by reflexivity.
  pose proof (X8_empty_pattern detect decode fnmatch always
                (init 100) (with_patterns ["."]%string) here out_txt
                (world scenario_a (Some (Ok dot_lines)))
                L eq_refl eq_refl eq_refl) as (O & H).
  split; [exact L|]. split; [reflexivity|]. split; [exact O|].
  refine (proj1 (proj2 (H [] (lit "a.txt") (text_file "hello") 5%N (data "hello")
                          _ eq_refl _ eq_refl eq_refl _))).
  - apply reach_here. left. reflexivity.
  - vm_compute. discriminate.
  - intros p [<-|[]]. vm_compute. discriminate.
Defined.

(** A run on a path that names no directory. *)
Lemma X9_witness :
  lookup_dir here (dirs (mkState [] None [])) = None
  /\ always out_txt = true
  /\ utf8_encodable (chunk_text (RepoHeader here)) = true
  /\ convert_repository detect decode fnmatch always (init 100) here out_txt
       (mkState [] None [])
     = (Ok tt,
        mkState
          (console (mkState [] None [])
             ++ [PrintSuccess; PrintProcessed 0; PrintOutput out_txt])
          (Some [RepoHeader here; RepoRule])
          (dirs (mkState [] None []))).
Proof.
  split; [reflexivity|]. split; [reflexivity|]. split; [reflexivity|].
  exact (X9_missing_root detect decode fnmatch always (init 100) here out_txt
           (mkState [] None []) eq_refl eq_refl eq_refl).
Defined.


(** The line ["/logs"] plays no part. *)
Lemma X12_witness :
  PurePath.relative_to (PurePath.parse (lit "proj/logs/run.log")) here
  = Ok (mkPath [] [lit "logs"; lit "run.log"])
  /\ is_ignored fnmatch (with_patterns ["/logs"; "*.txt"]%string)
       (PurePath.parse (lit "proj/logs/run.log")) here
     = any_match fnmatch (mkPath [] [lit "logs"; lit "run.log"])
         (filter (fun p => negb (startswith p (lit "/")))
            (gitignore_patterns (with_patterns ["/logs"; "*.txt"]%string))).
Proof.
  split; [reflexivity|].
  exact (proj1 (proj2 (X12_anchored_patterns_dead fnmatch
                         (with_patterns ["/logs"; "*.txt"]%string)
                         (PurePath.parse (lit "proj/logs/run.log")) here
                         (mkPath [] [lit "logs"; lit "run.log"]) eq_refl))).
Defined.

(** The pattern ["docs"] does not ignore a file below [docs]. *)
Lemma X13_witness :
  valid_name (lit "docs") = true
  /\ PurePath_match fnmatch (mkPath [] ([lit "docs"] ++ [lit "readme.md"]))
       (lit "docs")
     = Ok (fnmatch (lit "readme.md") (lit "docs")).
Proof.
  split; [reflexivity|].
  exact (proj1 (X13_name_patterns fnmatch (init 100) here [lit "docs"]
                  (lit "readme.md") (lit "docs") eq_refl)).
Defined.

Lemma X14_witness :
  anchor a_txt = [] /\ forallb valid_name (parts a_txt) = true
  /\ PurePath.parse (PurePath.to_str a_txt) = a_txt.
Proof.
  split; [reflexivity|]. split; [reflexivity|].
  exact (proj1 (X14_header_identifies_file a_txt a_txt
                  eq_refl eq_refl eq_refl eq_refl)).
Defined.



(** A second run over an artifact of another repository. *)
Lemma X18_witness :
  loaded (init 100) here (world scenario_a None) = Ok (init 100)
  /\ always out_txt = true
  /\ outfile (snd (convert_repository detect decode fnmatch always
                     (init 100) here out_txt
                     (mkState [ErrConversion] (Some [RepoHeader tmp])
                        (dirs (world scenario_a None)))))
     = outfile (snd (convert_repository detect decode fnmatch always
                       (init 100) here out_txt (world scenario_a None))).
Proof.
  split; [reflexivity|]. split; [reflexivity|].
  exact (proj1 (X18_output_truncated detect decode fnmatch always
                  (init 100) (init 100) here out_txt (world scenario_a None)
                  [ErrConversion] (Some [RepoHeader tmp]) eq_refl)
           eq_refl).
Defined.

(** The remote run of the sample repository. *)
Lemma X19_witness :
  remote url = Some (mkRoot scenario_a None)
  /\ always out_txt = true
  /\ exists body,
       outfile (snd (clone_and_convert detect decode fnmatch remote tmp always
                       (init 100) url out_txt (world [] None)))
       = Some (RepoHeader tmp :: RepoRule :: body)
       /\ sections_ok body = true
       /\ forall rel, In rel (headers body) ->
            exists ds n f,
              reachable (keep_dir (init 100))
                (listing (mkRoot scenario_a None)) ds n f
              /\ rel = mkPath [] (ds ++ [n]).
Proof.
  split; [reflexivity|]. split; [reflexivity|].
  exact (X19_remote_header detect decode fnmatch remote tmp always
           (init 100) (init 100) url out_txt (world [] None)
           (mkRoot scenario_a None) eq_refl eq_refl eq_refl eq_refl).
Defined.
